(** * nesa-todo-backend: the handlers of the todo controller

    A shallow embedding of [src/controllers/todoController.js]
    ([createTodo], [getAllTodos], [getTodoById], [updateTodo], [deleteTodo],
    [getTodoStats]) over an in-memory model of the Firestore collection the
    handlers talk to, followed by the properties the specification states
    about them and by further properties read off the code.

    Conventions.
    - A JavaScript object is a finite map from field names to values.
    - A JavaScript number is modelled by the value it denotes: [NaN], the two
      infinities, negative zero, or an integer.  The numbers the handlers
      compute with are counts, page numbers and millisecond time stamps,
      which a double holds exactly below 2^53.  The one genuinely fractional
      computation, the completion rate, is carried out on binary64 floats.
    - The collection is a finite map from document ids to document data, so
      ids are unique by construction. *)

From Stdlib Require Import ZArith Floats Uint63 Ascii String.
From Stdlib Require Import Decimal DecimalString DecimalN.
From stdpp Require Import gmap strings list fin_maps sorting lexico.

Local Open Scope Z_scope.

(** ** JavaScript values and objects *)

Inductive value : Type :=
  | VNull
  | VNum (n : Z)
  | VStr (s : string).

Global Instance value_eq_dec : EqDecision value.
Proof. solve_decision. Defined.

Abbreviation object := (gmap string value).

(** Truthiness of a field read: [undefined] (absent field), [null], [0] and
    the empty string are falsy. *)
Definition truthy (v : option value) : bool :=
  match v with
  | Some (VNum n) => negb (n =? 0)
  | Some (VStr s) => negb (bool_decide (s = ""))
  | Some VNull | None => false
  end.

(** ** JavaScript numbers *)

Inductive number : Type :=
  | NaN
  | Int (n : Z)
  | NegZero
  | Inf (negative : bool).

Global Instance number_eq_dec : EqDecision number.
Proof. solve_decision. Defined.

Module Num.

(** The integer a finite number denotes. *)
Definition finite (a : number) : option Z :=
  match a with
  | Int n => Some n
  | NegZero => Some 0
  | NaN | Inf _ => None
  end.

(** Sign bit, negative zero included. *)
Definition negative (a : number) : bool :=
  match a with
  | Int n => n <? 0
  | NegZero => true
  | Inf s => s
  | NaN => false
  end.

Definition zero (s : bool) : number := if s then NegZero else Int 0.

(** A signed integer result: zero keeps the sign [s]. *)
Definition signed (s : bool) (z : Z) : number :=
  if z =? 0 then zero s else Int z.

(** Position on the extended number line, [None] for [NaN]. *)
Definition rank (a : number) : option (Z * Z) :=
  match a with
  | NaN => None
  | Inf true => Some (-1, 0)
  | Int n => Some (0, n)
  | NegZero => Some (0, 0)
  | Inf false => Some (1, 0)
  end.

(** [a < b] *)
Definition lt (a b : number) : bool :=
  match rank a, rank b with
  | Some (c1, x1), Some (c2, x2) => (c1 <? c2) || ((c1 =? c2) && (x1 <? x2))
  | _, _ => false
  end.

(** [a > b] *)
Definition gt (a b : number) : bool := lt b a.

(** [a === b] on numbers *)
Definition eq (a b : number) : bool :=
  match rank a, rank b with
  | Some (c1, x1), Some (c2, x2) => (c1 =? c2) && (x1 =? x2)
  | _, _ => false
  end.

(** [a <= b] *)
Definition le (a b : number) : bool := lt a b || eq a b.

(** [a - b], for the finite operands the handlers subtract.  A zero
    difference is [+0] unless it is [(-0) - (+0)]. *)
Definition sub (a b : number) : number :=
  match a, b with
  | NaN, _ | _, NaN => NaN
  | Inf s, Inf t => if bool_decide (s = t) then NaN else Inf s
  | Inf s, _ => Inf s
  | _, Inf t => Inf (negb t)
  | NegZero, Int 0 => NegZero
  | _, _ =>
      match finite a, finite b with
      | Some x, Some y => Int (x - y)
      | _, _ => NaN
      end
  end.

(** [a * b] *)
Definition mul (a b : number) : number :=
  match a, b with
  | NaN, _ | _, NaN => NaN
  | _, _ =>
      let s := xorb (negative a) (negative b) in
      match finite a, finite b with
      | Some x, Some y => signed s (x * y)
      | Some x, None | None, Some x => if x =? 0 then NaN else Inf s
      | None, None => Inf s
      end
  end.

(** [Math.ceil(a / b)] for integer-valued [a] and [b]: the exact quotient
    rounded up.  [Z.div] rounds down for either sign of the divisor, so
    the ceiling is [- ((- x) / y)].  The double quotient has the same
    ceiling as the exact one as long as [|a| < 2^53]: a quotient that is
    not an integer is at least [1 / |b|] away from the next integer, more
    than the rounding error of the division. *)
Definition ceil_div (a b : number) : number :=
  match a, b with
  | NaN, _ | _, NaN => NaN
  | _, _ =>
      let s := xorb (negative a) (negative b) in
      match finite a, finite b with
      | Some x, Some y =>
          if y =? 0 then (if x =? 0 then NaN else Inf s)
          else signed s (- ((- x) / y))
      | Some _, None => zero s
      | None, Some _ => Inf s
      | None, None => NaN
      end
  end.

End Num.

(** ** [parseInt] with no radix argument *)

Definition is_space (c : ascii) : bool :=
  let n := nat_of_ascii c in
  bool_decide (n = 32%nat) || (bool_decide (9 ≤ n)%nat && bool_decide (n ≤ 13)%nat).

Fixpoint skip_spaces (s : string) : string :=
  match s with
  | String c r => if is_space c then skip_spaces r else s
  | EmptyString => s
  end.

(** Value of a digit character in radices up to 36. *)
Definition digit_value (c : ascii) : option Z :=
  let n := Z.of_nat (nat_of_ascii c) in
  if (48 <=? n) && (n <=? 57) then Some (n - 48)
  else if (97 <=? n) && (n <=? 122) then Some (n - 87)
  else if (65 <=? n) && (n <=? 90) then Some (n - 55)
  else None.

(** The longest prefix of digits of the radix; [acc] is [None] until a first
    digit has been read. *)
Fixpoint parse_digits (radix : Z) (acc : option Z) (s : string) : option Z :=
  match s with
  | EmptyString => acc
  | String c r =>
      match digit_value c with
      | Some d =>
          if d <? radix
          then parse_digits radix (Some (default 0 acc * radix + d)) r
          else acc
      | None => acc
      end
  end.

Definition strip_sign (s : string) : bool * string :=
  match s with
  | String "-" r => (true, r)
  | String "+" r => (false, r)
  | _ => (false, s)
  end.

Definition strip_hex_prefix (s : string) : Z * string :=
  match s with
  | String "0" (String "x" r) | String "0" (String "X" r) => (16, r)
  | _ => (10, s)
  end.

(** Leading white space is skipped (the ASCII white space characters are
    modelled), a sign is read, a [0x] prefix selects radix 16, and the digits
    up to the first character that is not one are read; no digit at all
    gives [NaN]. *)
Definition parseInt (s : string) : number :=
  let '(neg, s1) := strip_sign (skip_spaces s) in
  let '(radix, s2) := strip_hex_prefix s1 in
  match parse_digits radix None s2 with
  | None => NaN
  | Some n => if neg then Num.signed true (- n) else Int n
  end.

(** ** Exceptions *)

Inductive result (A : Type) : Type :=
  | Ok (a : A)
  | Throw (message : string).
Global Arguments Ok {A} a.
Global Arguments Throw {A} message.

Definition bind {A B} (r : result A) (k : A → result B) : result B :=
  match r with
  | Ok a => k a
  | Throw m => Throw m
  end.

Notation "'await' x ← r ; k" := (bind r (λ x, k))
  (at level 10, x name, r at level 100, k at level 200,
   format "'[v' 'await'  x  ←  r ; '/' k ']'").

(** [try { body } catch (error) { handler(error.message) }] *)
Definition try_catch {A} (body : result A) (handler : string → A) : A :=
  match body with
  | Ok a => a
  | Throw m => handler m
  end.

(** ** The Firestore collection and its queries

    The store is an external service; what follows is the part of its
    behaviour the handlers rely on.  A query is built up by [where_],
    [orderBy], [limit] and [startAfter] and run by [get] or [count].
    As in Firestore, a query that orders by a field only sees the documents
    that have the field, documents with equal values are ordered by id, and
    a cursor resumes strictly after the position of its document. *)

Abbreviation document := (string * object)%type.
Abbreviation collection := (gmap string object).

Inductive direction : Type := asc | desc.

Module Firestore.

Record Query : Type := {
  filter_eq : option (string * value);
  order_by : option (string * direction);
  limit_to : option number;
  start_after : option document
}.

(** [db.collection('todos')] *)
Definition todos : Query :=
  {| filter_eq := None; order_by := None; limit_to := None; start_after := None |}.

(** [query.where(field, '==', v)] *)
Definition where_ (field : string) (v : value) (q : Query) : Query :=
  {| filter_eq := Some (field, v); order_by := order_by q;
     limit_to := limit_to q; start_after := start_after q |}.

(** [query.orderBy(field, dir)] *)
Definition orderBy (field : string) (dir : direction) (q : Query) : Query :=
  {| filter_eq := filter_eq q; order_by := Some (field, dir);
     limit_to := limit_to q; start_after := start_after q |}.

(** [query.limit(n)]: a later call replaces an earlier one. *)
Definition limit (n : number) (q : Query) : Query :=
  {| filter_eq := filter_eq q; order_by := order_by q;
     limit_to := Some n; start_after := start_after q |}.

(** [query.startAfter(doc)] *)
Definition startAfter (doc : document) (q : Query) : Query :=
  {| filter_eq := filter_eq q; order_by := order_by q;
     limit_to := limit_to q; start_after := Some doc |}.

(** A document is a candidate of the query when it passes the equality
    filter and carries the field the query orders by. *)
Definition candidate (q : Query) (d : document) : bool :=
  match filter_eq q with
  | Some (f, v) => bool_decide (d.2 !! f = Some v)
  | None => true
  end
  &&
  match order_by q with
  | Some (f, _) => bool_decide (is_Some (d.2 !! f))
  | None => true
  end.

(** Byte sequence of a string; strings are ordered as byte sequences. *)
Definition bytes (s : string) : list nat :=
  nat_of_ascii <$> list_ascii_of_string s.

(** Values are ordered by type first (null, then numbers, then strings),
    then within the type. *)
Definition value_rank (v : option value) : nat * (Z * list nat) :=
  match v with
  | None => (0%nat, (0, []))
  | Some VNull => (1%nat, (0, []))
  | Some (VNum n) => (2%nat, (n, []))
  | Some (VStr s) => (3%nat, (0, bytes s))
  end.

(** Documents are ordered by the order-by field, ties broken by document
    id; without an order-by clause, by id alone. *)
Definition sort_key (q : Query) (d : document) : nat * (Z * list nat) * list nat :=
  (match order_by q with
   | Some (f, _) => value_rank (d.2 !! f)
   | None => value_rank None
   end, bytes d.1).

Definition descending (q : Query) : bool :=
  match order_by q with
  | Some (_, desc) => true
  | _ => false
  end.

(** [a] comes strictly before [b] in the query's order. *)
Definition precedes (q : Query) (a b : document) : Prop :=
  if descending q
  then lexico (sort_key q b) (sort_key q a)
  else lexico (sort_key q a) (sort_key q b).

Global Instance precedes_dec q a b : Decision (precedes q a b).
Proof. unfold precedes. destruct (descending q); apply _. Defined.

(** [a] does not come after [b]. *)
Definition not_after (q : Query) (a b : document) : Prop := ¬ precedes q b a.

Global Instance not_after_dec q a b : Decision (not_after q a b).
Proof. unfold not_after. apply _. Defined.

(** The candidates in query order. *)
Definition ordered (q : Query) (c : collection) : list document :=
  merge_sort (not_after q) (filter (λ d, candidate q d) (map_to_list c)).

(** The documents the query selects before any limit: the ordered
    candidates, from just after the cursor when there is one. *)
Definition selected (q : Query) (c : collection) : list document :=
  match start_after q with
  | Some cur => filter (precedes q cur) (ordered q c)
  | None => ordered q c
  end.

(** [query.count().get()], then [.data().count] *)
Definition count (q : Query) (c : collection) : result Z :=
  Ok (Z.of_nat (length (selected q c))).

Section get.

(** What the store answers when the limit is not a positive integer
    ([NaN], zero, a negative number): depending on the SDK this is a
    validation error, a rejection by the backend, or a limit that is
    silently dropped.  The handlers are modelled for any such answer. *)
Variable invalid_limit : number → list document → result (list document).

(** [query.get()], then [.docs] *)
Definition get (q : Query) (c : collection) : result (list document) :=
  match limit_to q with
  | None => Ok (selected q c)
  | Some (Int n) =>
      if 0 <? n then Ok (take (Z.to_nat n) (selected q c))
      else invalid_limit (Int n) (selected q c)
  | Some n => invalid_limit n (selected q c)
  end.

End get.

(** [db.collection('todos').doc(id).get()], then [.exists] and [.data()] *)
Definition doc_get (id : string) (c : collection) : result (option object) :=
  Ok (c !! id).

(** [db.collection('todos').doc(id).delete()] *)
Definition doc_delete (id : string) (c : collection) : result collection :=
  Ok (delete id c).

End Firestore.

(** ** Requests and responses *)

Module Request.

(** [req.query] of [GET /api/todos]; an absent parameter is [None]. *)
Record query : Type := {
  status : option string;
  sortBy : option string;
  order : option string;
  limit : option string;
  page : option string
}.

End Request.

Module Pagination.

Record t : Type := {
  page : number;
  limit : number;
  total : Z;
  totalPages : number;
  hasNextPage : bool;
  hasPrevPage : bool
}.

End Pagination.

Module Stats.

Record t : Type := {
  total : Z;
  pending : Z;
  inProgress : Z;
  completed : Z;
  overdue : Z;
  completionRate : number
}.

End Stats.

(** The JSON bodies the three handlers send, without the [success] flag. *)
Inductive payload : Type :=
  | Listing (data : list object) (pagination : Pagination.t)
  | Statistics (data : Stats.t)
  | Message (message : string)
  | Failure (error : string) (details : option string).

Module Response.

Record t : Type := {
  status : Z;
  success : bool;
  body : payload
}.

End Response.

(** ** Dates *)

(** A [Date] is its time value in milliseconds, [None] for an invalid date. *)
Definition TimeClip (ms : Z) : option Z :=
  if Z.abs ms <=? 8640000000000000 then Some ms else None.

(** The time value as a number, [NaN] for an invalid date. *)
Definition time_value (d : option Z) : number :=
  match d with
  | Some ms => Int ms
  | None => NaN
  end.

(** ** [Math.round] on binary64 *)

(** A count as a double (exact below 2^53). *)
Definition float_of_count (n : Z) : float := PrimFloat.of_uint63 (Uint63.of_Z n).

(** The integer closest to [x], ties towards +∞: [floor (x + 1/2)] computed
    exactly from mantissa and exponent, [x = ± m * 2^e]. *)
Definition Math_round (x : float) : number :=
  match Prim2SF x with
  | S754_nan => NaN
  | S754_infinity s => Inf s
  | S754_zero s => Num.zero s
  | S754_finite s m e =>
      let v := if s then Z.neg m else Z.pos m in
      Num.signed s
        (if 0 <=? e then v * 2 ^ e
         else (2 * v + 2 ^ (- e)) / 2 ^ (1 - e))
  end.

(** ** The handlers *)

Definition valid_statuses : list string := ["pending"; "in-progress"; "completed"].

Section controller.

(** [Date.parse]: the time value of a date string, [None] when the string is
    not a date.  Its result on strings outside the ISO format is left to the
    JavaScript engine, so it is kept as a parameter. *)
Variable Date_parse : string → option Z.

(** [process.env.NODE_ENV] *)
Variable NODE_ENV : option string.

(** The store's answer to a limit that is not a positive integer. *)
Variable invalid_limit : number → list document → result (list document).

(** [new Date(v)] for a field value [v] *)
Definition Date_new (v : option value) : option Z :=
  match v with
  | Some (VStr s) => Date_parse s
  | Some (VNum n) => TimeClip n
  | Some VNull => Some 0
  | None => None
  end.

(** [process.env.NODE_ENV === 'development' ? error.message : undefined] *)
Definition details_of (message : string) : option string :=
  if bool_decide (NODE_ENV = Some "development") then Some message else None.

(** [{ id: doc.id, ...doc.data() }]: a stored field named [id] wins. *)
Definition todo_of_doc (doc : document) : object :=
  doc.2 ∪ {[ "id" := VStr doc.1 ]}.

(** The body of the [todos.map] callback once [todo.deadline] is known to be
    truthy and the clock has been read. *)
Definition deadlineStatus_at (now : Z) (todo : object) : string :=
  let deadline := Date_new (todo !! "deadline") in
  let daysUntilDeadline :=
    Num.ceil_div (Num.sub (time_value deadline) (Int now))
                 (Int (1000 * 60 * 60 * 24)) in
  if Num.lt daysUntilDeadline (Int 0) then "overdue"
  else if Num.eq daysUntilDeadline (Int 0) then "due-today"
  else if Num.le daysUntilDeadline (Int 3) then "due-soon"
  else "none".

(** [todos.map(todo => ...)].  The callback reads the clock ([new Date()])
    only for a todo with a truthy deadline; [clock k] is the k-th reading
    taken while the request is served, [tick] the number of readings so far. *)
Fixpoint todosWithDeadlineStatus (clock : nat → Z) (tick : nat)
    (todos : list object) : list object :=
  match todos with
  | [] => []
  | todo :: rest =>
      if truthy (todo !! "deadline")
      then <[ "deadlineStatus" := VStr (deadlineStatus_at (clock tick) todo) ]> todo
           :: todosWithDeadlineStatus clock (S tick) rest
      else <[ "deadlineStatus" := VStr "none" ]> todo
           :: todosWithDeadlineStatus clock tick rest
  end.

(** [status && ['pending', 'in-progress', 'completed'].includes(status)] *)
Definition status_filter (status : option string) : option string :=
  match status with
  | Some s =>
      if truthy (Some (VStr s)) && bool_decide (s ∈ valid_statuses)
      then Some s else None
  | None => None
  end.

(** The query after the filter and sort steps of [getAllTodos]. *)
Definition planned_query (req : Request.query) : Firestore.Query :=
  let sortBy := default "createdAt" (Request.sortBy req) in
  let order := default "desc" (Request.order req) in
  let query := Firestore.todos in
  let query :=
    match status_filter (Request.status req) with
    | Some s => Firestore.where_ "status" (VStr s) query
    | None => query
    end in
  let sortOrder := if bool_decide (order = "asc") then asc else desc in
  Firestore.orderBy sortBy sortOrder query.

(** [GET /api/todos] *)
Definition getAllTodos (clock : nat → Z) (db : collection)
    (req : Request.query) : Response.t :=
  try_catch
    (let limit := default "20" (Request.limit req) in
     let page := default "1" (Request.page req) in
     let query := planned_query req in
     let pageNum := parseInt page in
     let limitNum := parseInt limit in
     let offset := Num.mul (Num.sub pageNum (Int 1)) limitNum in
     await total ← Firestore.count query db;
     let query := Firestore.limit limitNum query in
     await query ←
       (if Num.gt offset (Int 0) then
          await docs ← Firestore.get invalid_limit (Firestore.limit offset query) db;
          match last docs with
          | Some lastDoc => Ok (Firestore.startAfter lastDoc query)
          | None => Ok query
          end
        else Ok query);
     await snapshot ← Firestore.get invalid_limit query db;
     let todos := todo_of_doc <$> snapshot in
     Ok {| Response.status := 200;
           Response.success := true;
           Response.body :=
             Listing (todosWithDeadlineStatus clock 0 todos)
               {| Pagination.page := pageNum;
                  Pagination.limit := limitNum;
                  Pagination.total := total;
                  Pagination.totalPages := Num.ceil_div (Int total) limitNum;
                  Pagination.hasNextPage :=
                    Num.lt pageNum (Num.ceil_div (Int total) limitNum);
                  Pagination.hasPrevPage := Num.gt pageNum (Int 1) |} |})
    (λ message,
       {| Response.status := 500;
          Response.success := false;
          Response.body := Failure "Failed to fetch todos" (details_of message) |}).

(** [DELETE /api/todos/:id]: the collection afterwards and the response. *)
Definition deleteTodo (db : collection) (id : string) : collection * Response.t :=
  try_catch
    (await doc ← Firestore.doc_get id db;
     match doc with
     | None =>
         Ok (db, {| Response.status := 404;
                    Response.success := false;
                    Response.body := Failure "Todo not found" None |})
     | Some _ =>
         await db' ← Firestore.doc_delete id db;
         Ok (db', {| Response.status := 200;
                     Response.success := true;
                     Response.body := Message "Todo deleted successfully" |})
     end)
    (λ message,
       (db, {| Response.status := 500;
               Response.success := false;
               Response.body := Failure "Failed to delete todo" (details_of message) |})).

(** One round of the [snapshot.forEach] loop of [getTodoStats]; the counters
    are [(total, pending, inProgress, completed, overdue)]. *)
Definition tally (now : Z) (acc : Z * Z * Z * Z * Z) (doc : document)
    : Z * Z * Z * Z * Z :=
  let '(total, pending, inProgress, completed, overdue) := acc in
  let todo := doc.2 in
  let total := total + 1 in
  let pending :=
    if bool_decide (todo !! "status" = Some (VStr "pending"))
    then pending + 1 else pending in
  let inProgress :=
    if bool_decide (todo !! "status" = Some (VStr "in-progress"))
    then inProgress + 1 else inProgress in
  let completed :=
    if bool_decide (todo !! "status" = Some (VStr "completed"))
    then completed + 1 else completed in
  let overdue :=
    if truthy (todo !! "deadline")
       && Num.lt (time_value (Date_new (todo !! "deadline"))) (Int now)
       && negb (bool_decide (todo !! "status" = Some (VStr "completed")))
    then overdue + 1 else overdue in
  (total, pending, inProgress, completed, overdue).

(** [total > 0 ? Math.round((completed / total) * 100) : 0] *)
Definition completionRate_of (completed total : Z) : number :=
  if 0 <? total
  then Math_round (float_of_count completed / float_of_count total * 100)%float
  else Int 0.

(** [GET /api/todos/stats]; [now] is the one clock reading of the request. *)
Definition getTodoStats (now : Z) (db : collection) : Response.t :=
  try_catch
    (await snapshot ← Firestore.get invalid_limit Firestore.todos db;
     let '(total, pending, inProgress, completed, overdue) :=
       foldl (tally now) (0, 0, 0, 0, 0) snapshot in
     Ok {| Response.status := 200;
           Response.success := true;
           Response.body :=
             Statistics
               {| Stats.total := total;
                  Stats.pending := pending;
                  Stats.inProgress := inProgress;
                  Stats.completed := completed;
                  Stats.overdue := overdue;
                  Stats.completionRate := completionRate_of completed total |} |})
    (λ message,
       {| Response.status := 500;
          Response.success := false;
          Response.body := Failure "Failed to get statistics" (details_of message) |}).

End controller.

(** ** The handlers of a single record

    [createTodo], [getTodoById] and [updateTodo] answer with one record.
    The store operations they use beyond those of the list handler are
    [add] and [update]. *)

Module FirestoreDoc.

(** [db.collection('todos').add(data)]: the document is created under the id
    the store generates for it, which is an input here; creation fails when
    a document of that id exists. *)
Definition add (id : string) (data : object) (c : collection) : result collection :=
  match c !! id with
  | Some _ => Throw "Document already exists"
  | None => Ok (<[ id := data ]> c)
  end.

(** [docRef.update(fields)]: the given top-level fields replace those of the
    document, its other fields stay; updating a missing document fails. *)
Definition update (id : string) (fields : object) (c : collection)
    : result collection :=
  match c !! id with
  | Some old => Ok (<[ id := fields ∪ old ]> c)
  | None => Throw "No document to update"
  end.

End FirestoreDoc.

(** The JSON bodies of the single-record handlers, without the [success]
    flag: [{message, data}] and [{error, details}]. *)
Inductive item_payload : Type :=
  | Item (message : option string) (data : object)
  | ItemFailure (error : string) (details : option string).

Module Reply.

Record t : Type := {
  status : Z;
  success : bool;
  body : item_payload
}.

End Reply.

(** A key of an object literal whose value may be [undefined]. *)
Definition with_field (key : string) (v : option value) (o : object) : object :=
  match v with
  | Some x => <[ key := x ]> o
  | None => o
  end.

Section record_handlers.

(** [process.env.NODE_ENV] *)
Variable NODE_ENV : option string.

(** The Todo model ([models/Todo.js]): the fields
    [new Todo(input).toFirestore()] yields, or the message of the error the
    constructor throws.  The model is kept as a parameter and is taken to be
    a function of its input. *)
Variable Todo_fields : object → result object.

(** [new Date(ms).toISOString()] *)
Variable toISOString : Z → string.

(** The [catch] block of [createTodo] and [updateTodo]: a message that
    starts with [Validation failed:] is sent back with status 400, anything
    else gives 500 with the handler's own error text. *)
Definition rejection (failed : string) (message : string) : Reply.t :=
  if String.prefix "Validation failed:" message
  then {| Reply.status := 400;
          Reply.success := false;
          Reply.body := ItemFailure message None |}
  else {| Reply.status := 500;
          Reply.success := false;
          Reply.body := ItemFailure failed (details_of NODE_ENV message) |}.

(** [POST /api/todos]; [docId] is the id the store generates. *)
Definition createTodo (docId : string) (db : collection) (body : object)
    : collection * Reply.t :=
  try_catch
    (let title := body !! "title" in
     let description := body !! "description" in
     let status := body !! "status" in
     let deadline := body !! "deadline" in
     await todo ←
       Todo_fields
         (with_field "title" title
            (with_field "description" description
               (with_field "status" status
                  (with_field "deadline" deadline ∅))));
     await db' ← FirestoreDoc.add docId todo db;
     Ok (db', {| Reply.status := 201;
                 Reply.success := true;
                 Reply.body :=
                   Item (Some "Todo created successfully")
                        (todo ∪ {[ "id" := VStr docId ]}) |}))
    (λ message, (db, rejection "Failed to create todo" message)).

(** [GET /api/todos/:id] *)
Definition getTodoById (db : collection) (id : string) : Reply.t :=
  try_catch
    (await doc ← Firestore.doc_get id db;
     match doc with
     | None =>
         Ok {| Reply.status := 404;
               Reply.success := false;
               Reply.body := ItemFailure "Todo not found" None |}
     | Some data =>
         Ok {| Reply.status := 200;
               Reply.success := true;
               Reply.body := Item None (todo_of_doc (id, data)) |}
     end)
    (λ message,
       {| Reply.status := 500;
          Reply.success := false;
          Reply.body := ItemFailure "Failed to fetch todo" (details_of NODE_ENV message) |}).

(** [PUT /api/todos/:id]; [now] is the clock reading of [new Date()]. *)
Definition updateTodo (now : Z) (db : collection) (id : string) (updates : object)
    : collection * Reply.t :=
  try_catch
    (await doc ← Firestore.doc_get id db;
     match doc with
     | None =>
         Ok (db, {| Reply.status := 404;
                    Reply.success := false;
                    Reply.body := ItemFailure "Todo not found" None |})
     | Some existingTodo =>
         await updatedTodo ←
           Todo_fields
             (<[ "updatedAt" := VStr (toISOString now) ]> (updates ∪ existingTodo));
         await db' ← FirestoreDoc.update id updatedTodo db;
         Ok (db', {| Reply.status := 200;
                     Reply.success := true;
                     Reply.body :=
                       Item (Some "Todo updated successfully")
                            (updatedTodo ∪ {[ "id" := VStr id ]}) |})
     end)
    (λ message, (db, rejection "Failed to update todo" message)).

End record_handlers.

(** * The vocabulary of the specification *)

Definition day : Z := 1000 * 60 * 60 * 24.

(** [ceil (n / d)] for a positive [d] *)
Definition ceiling (n d : Z) : Z := (n + d - 1) / d.

(** The deadline classifier of the specification:
    no deadline gives none; otherwise, with
    [daysUntil = ceil ((deadline - now) / 1 day)],
    [daysUntil < 0] gives overdue, [daysUntil = 0] due-today,
    [0 < daysUntil ≤ 3] due-soon and [daysUntil > 3] none. *)
Definition classify (deadline : option Z) (now : Z) : string :=
  match deadline with
  | None => "none"
  | Some d =>
      let daysUntil := ceiling (d - now) day in
      if daysUntil <? 0 then "overdue"
      else if daysUntil =? 0 then "due-today"
      else if daysUntil <=? 3 then "due-soon"
      else "none"
  end.

Definition has_status (s : string) (todo : object) : Prop :=
  todo !! "status" = Some (VStr s).

Global Instance has_status_dec s todo : Decision (has_status s todo).
Proof. unfold has_status. apply _. Defined.

(** The status predicate of a list request: equality with the requested
    status when that is one of the three valid values, and no condition
    otherwise. *)
Definition status_predicate (status : option string) (todo : object) : Prop :=
  match status with
  | Some s => if bool_decide (s ∈ valid_statuses) then has_status s todo else True
  | None => True
  end.

Global Instance status_predicate_dec status todo :
  Decision (status_predicate status todo).
Proof.
  unfold status_predicate. destruct status as [s|]; [|apply _].
  destruct (bool_decide (s ∈ valid_statuses)); apply _.
Defined.

(** The number of records of the collection that satisfy [P]. *)
Definition count_records (P : object → Prop) `{!∀ o, Decision (P o)}
    (db : collection) : Z :=
  Z.of_nat (length (filter (λ d : document, P d.2) (map_to_list db))).

(** Every record carries the field. *)
Definition carries (field : string) (db : collection) : Prop :=
  map_Forall (λ _ (todo : object), is_Some (todo !! field)) db.


(** The number of documents the list handler skips for a parsed page number
    and a limit: the offset when it is positive, none otherwise. *)
Definition skipped (pageNum : number) (l : Z) : nat :=
  match pageNum with
  | Int p => Z.to_nat ((p - 1) * l)
  | _ => 0%nat
  end.

(** A request is rejected, or answered with page and limit of at least 1. *)
Definition rejected_or_clamped (r : Response.t) : Prop :=
  Response.success r = false ∨
  ∃ data pg, Response.body r = Listing data pg
             ∧ Num.le (Int 1) (Pagination.page pg) = true
             ∧ Num.le (Int 1) (Pagination.limit pg) = true.

(** The decimal numeral of a natural number, as a client writes a page
    number or a limit in the query string. *)
Definition decimal (n : N) : string := NilZero.string_of_uint (N.to_uint n).

(** The request with its [status] parameter replaced. *)
Definition with_status (status : option string) (req : Request.query)
    : Request.query :=
  {| Request.status := status;
     Request.sortBy := Request.sortBy req;
     Request.order := Request.order req;
     Request.limit := Request.limit req;
     Request.page := Request.page req |}.

(** The status of the record is one of the three enumerated values. *)
Definition enumerated (todo : object) : Prop :=
  Exists (λ s, has_status s todo) valid_statuses.

Global Instance enumerated_dec todo : Decision (enumerated todo).
Proof. unfold enumerated. apply _. Defined.

(** [round (completed / total * 100)], and [0] for an empty collection;
    quotient, product and rounding are those of JavaScript numbers. *)
Definition rate (completed total : Z) : number :=
  if bool_decide (total = 0) then Int 0
  else Math_round (float_of_count completed / float_of_count total * 100)%float.

Section vocabulary.

Variable Date_parse : string → option Z.

(** The deadline of a record: the time value of its [deadline] field when
    the field is set and holds a date. *)
Definition deadline_of (todo : object) : option Z :=
  if truthy (todo !! "deadline") then Date_new Date_parse (todo !! "deadline")
  else None.

(** Overdue for the statistics: a deadline strictly before [now] on a record
    that is not completed. *)
Definition is_overdue (now : Z) (todo : object) : Prop :=
  match deadline_of todo with
  | Some d => d < now
  | None => False
  end ∧ ¬ has_status "completed" todo.

Global Instance is_overdue_dec now todo : Decision (is_overdue now todo).
Proof. unfold is_overdue. destruct (deadline_of todo); apply _. Defined.

End vocabulary.

(** * Sample data *)

(** A fragment of [Date.parse] on ISO strings. *)
Definition Date_parse_sample (s : string) : option Z :=
  if bool_decide (s = "2024-01-01T00:00:00.000Z") then Some 1704067200000
  else if bool_decide (s = "2024-01-03T00:00:00.000Z") then Some 1704240000000
  else if bool_decide (s = "2024-01-11T00:00:00.000Z") then Some 1704931200000
  else if bool_decide (s = "2023-12-31T23:59:59.000Z") then Some 1704067199000
  else None.

(** A store that throws on a limit that is not a positive integer. *)
Definition throwing_limit (n : number) (docs : list document)
    : result (list document) :=
  Throw "Value for argument limit is not a valid integer.".

Definition sample_todo (title status createdAt : string) (deadline : option string)
    : object :=
  let todo : object :=
    <[ "title" := VStr title ]> (<[ "status" := VStr status ]>
      (<[ "createdAt" := VStr createdAt ]> (<[ "updatedAt" := VStr createdAt ]> ∅))) in
  match deadline with
  | Some d => <[ "deadline" := VStr d ]> todo
  | None => <[ "deadline" := VNull ]> todo
  end.

(** Two completed records, one pending record whose deadline has passed, one
    record in progress. *)
Definition sample_db : collection :=
  <[ "t1" := sample_todo "write" "completed" "2023-12-01T08:00:00.000Z"
               (Some "2023-12-31T23:59:59.000Z") ]>
  (<[ "t2" := sample_todo "read" "completed" "2023-12-02T08:00:00.000Z" None ]>
  (<[ "t3" := sample_todo "ship" "pending" "2023-12-03T08:00:00.000Z"
               (Some "2023-12-31T23:59:59.000Z") ]>
  (<[ "t4" := sample_todo "plan" "in-progress" "2023-12-04T08:00:00.000Z"
               (Some "2024-01-03T00:00:00.000Z") ]> ∅))).

(** One pending record whose deadline passed one second before the clock of
    the samples. *)
Definition late_db : collection :=
  {[ "t3" := sample_todo "ship" "pending" "2023-12-03T08:00:00.000Z"
               (Some "2023-12-31T23:59:59.000Z") ]}.

(** The clock of the samples stands at 2024-01-01T00:00:00.000Z. *)
Definition sample_now : Z := 1704067200000.

Definition sample_request (status limit page : option string) : Request.query :=
  {| Request.status := status; Request.sortBy := None; Request.order := None;
     Request.limit := limit; Request.page := page |}.

Definition sample_clock : nat → Z := λ _, sample_now.

(** The list handler on the samples. *)
Definition sample_list (db : collection) (req : Request.query) : Response.t :=
  getAllTodos Date_parse_sample None throwing_limit sample_clock db req.

(** The request with its [order] parameter replaced. *)
Definition with_order (order : option string) (req : Request.query)
    : Request.query :=
  {| Request.status := Request.status req;
     Request.sortBy := Request.sortBy req;
     Request.order := order;
     Request.limit := Request.limit req;
     Request.page := Request.page req |}.

(** A stand-in for the Todo model in the examples: a title is required, the
    status defaults to pending, the time stamps are kept. *)
Definition sample_Todo_fields (input : object) : result object :=
  match input !! "title" with
  | Some (VStr title) =>
      if bool_decide (title = "")
      then Throw "Validation failed: Title is required"
      else Ok (with_field "deadline" (input !! "deadline")
                 (with_field "createdAt" (input !! "createdAt")
                    (with_field "updatedAt" (input !! "updatedAt")
                       (<[ "status" := default (VStr "pending") (input !! "status") ]>
                          {[ "title" := VStr title ]}))))
  | _ => Throw "Validation failed: Title is required"
  end.

(** [toISOString] at the clock reading of the samples. *)
Definition sample_toISOString (ms : Z) : string :=
  if bool_decide (ms = 1704067200000) then "2024-01-01T00:00:00.000Z" else "".

(** The single-record handlers on the samples. *)
Definition sample_create : string → collection → object → collection * Reply.t :=
  createTodo None sample_Todo_fields.

Definition sample_update : collection → string → object → collection * Reply.t :=
  updateTodo None sample_Todo_fields sample_toISOString 1704067200000.

(** The data of a reply that carries a record. *)
Definition reply_data (r : Reply.t) : object :=
  match Reply.body r with
  | Item _ data => data
  | ItemFailure _ _ => ∅
  end.

(** * Properties *)

(** ** Numbers and [parseInt] *)

Lemma signed_true_parsed n :
  Num.signed true n = NegZero ∨ ∃ m, Num.signed true n = Int m.
Proof. unfold Num.signed. destruct (n =? 0); [by left | right; eauto]. Qed.

(** [parseInt] yields [NaN], a zero or an integer, never an infinity. *)
Lemma parseInt_parsed s :
  parseInt s = NaN ∨ parseInt s = NegZero ∨ ∃ n, parseInt s = Int n.
Proof.
  unfold parseInt.
  destruct (strip_sign (skip_spaces s)) as [neg s1].
  destruct (strip_hex_prefix s1) as [radix s2].
  destruct (parse_digits radix None s2) as [n|]; [|by left].
  right. destruct neg; [apply signed_true_parsed | eauto].
Qed.

Lemma parse_digits_acc d p :
  parse_digits 10 (Some (Z.pos p)) (NilEmpty.string_of_uint d)
  = Some (Z.pos (Pos.of_uint_acc d p)).
Proof.
  revert p. induction d as [|d IH|d IH|d IH|d IH|d IH|d IH|d IH|d IH|d IH|d IH];
    intros p; [done|..]; cbn [NilEmpty.string_of_uint parse_digits];
    change (digit_value _) with (Some 0) || change (digit_value _) with (Some 1)
    || change (digit_value _) with (Some 2) || change (digit_value _) with (Some 3)
    || change (digit_value _) with (Some 4) || change (digit_value _) with (Some 5)
    || change (digit_value _) with (Some 6) || change (digit_value _) with (Some 7)
    || change (digit_value _) with (Some 8) || change (digit_value _) with (Some 9);
    cbn [Z.ltb Z.compare Pos.compare Pos.compare_cont default];
    cbn [Pos.of_uint_acc]; rewrite <- IH; unfold id; f_equal; f_equal; lia.
Qed.

Lemma parse_digits_zero d :
  parse_digits 10 (Some 0) (NilEmpty.string_of_uint d)
  = Some (Z.of_N (N.of_uint d)).
Proof.
  induction d; [done| |..];
    cbn [NilEmpty.string_of_uint parse_digits];
    [exact IHd | exact (parse_digits_acc d _)..].
Qed.

Lemma parse_digits_numeral d :
  d ≠ Nil →
  parse_digits 10 None (NilEmpty.string_of_uint d) = Some (Z.of_N (N.of_uint d)).
Proof.
  destruct d; [done| |..]; intros _;
    [exact (parse_digits_zero d) | exact (parse_digits_acc d _)..].
Qed.

Lemma to_uint_not_Nil n : N.to_uint n ≠ Nil.
Proof.
  intros H. pose proof (DecimalN.Unsigned.of_to n) as Hn. rewrite H in Hn.
  destruct n as [|p]; [done|]. done.
Qed.

(** A numeral starts with a digit: no white space, no sign, no [0x]. *)
Lemma numeral_plain d :
  d ≠ Nil →
  let s := NilEmpty.string_of_uint d in
  skip_spaces s = s ∧ strip_sign s = (false, s) ∧ strip_hex_prefix s = (10, s).
Proof. destruct d as [|d| | | | | | | | |]; try done. by destruct d. Qed.

(** A page number or limit written in decimal is parsed to itself. *)
Lemma parseInt_decimal n : parseInt (decimal n) = Int (Z.of_N n).
Proof.
  pose proof (to_uint_not_Nil n) as Hn.
  assert (decimal n = NilEmpty.string_of_uint (N.to_uint n)) as ->.
  { unfold decimal. by destruct (N.to_uint n). }
  destruct (numeral_plain _ Hn) as (Hsp & Hsg & Hhx).
  unfold parseInt. rewrite Hsp, Hsg, Hhx, (parse_digits_numeral _ Hn).
  by rewrite DecimalN.Unsigned.of_to.
Qed.

Example parseInt_examples :
  parseInt "10" = Int 10 ∧ parseInt "-5" = Int (-5) ∧ parseInt "0" = Int 0
  ∧ parseInt "-0" = NegZero ∧ parseInt " 42px" = Int 42
  ∧ parseInt "1.9" = Int 1 ∧ parseInt "0x1F" = Int 31
  ∧ parseInt "abc" = NaN ∧ parseInt "" = NaN.
Proof. repeat split. Qed.

Example Math_round_examples :
  Math_round 2.5 = Int 3 ∧ Math_round (-2.5) = Int (-2)
  ∧ Math_round 0.25 = Int 0 ∧ Math_round (-0.25) = NegZero
  ∧ Math_round 0.5 = Int 1 ∧ Math_round (-0.5) = NegZero
  ∧ Math_round 57.5 = Int 58 ∧ Math_round 4503599627370497 = Int 4503599627370497.
Proof. repeat split. Qed.

(** On doubles, 23 of 40 is 57.49999999999999 percent and rounds to 57. *)
Example rate_examples :
  rate 2 4 = Int 50 ∧ rate 1 3 = Int 33 ∧ rate 2 3 = Int 67
  ∧ rate 1 8 = Int 13 ∧ rate 23 40 = Int 57 ∧ rate 0 0 = Int 0.
Proof. repeat split. Qed.

(** The rounded-up quotient of a count by a positive limit. *)
Lemma ceil_div_pos t l :
  0 ≤ t → 0 < l → Num.ceil_div (Int t) (Int l) = Int (- ((- t) / l)).
Proof.
  intros Ht Hl. unfold Num.ceil_div, Num.signed, Num.zero; simpl.
  destruct (l =? 0) eqn:E; [lia|].
  destruct (- (- t / l) =? 0) eqn:E2; [|done].
  apply Z.eqb_eq in E2. rewrite E2.
  destruct (t <? 0) eqn:E3; [lia|]. destruct (l <? 0) eqn:E4; [lia|]. done.
Qed.

Lemma ceil_div_count t l :
  0 ≤ t → 0 < l → Num.ceil_div (Int t) (Int l) = Int (ceiling t l).
Proof.
  intros Ht Hl. rewrite ceil_div_pos by done. f_equal.
  unfold ceiling.
  pose proof (Z.div_mod (- t) l ltac:(lia)).
  pose proof (Z.mod_pos_bound (- t) l Hl).
  pose proof (Z.div_mod (t + l - 1) l ltac:(lia)).
  pose proof (Z.mod_pos_bound (t + l - 1) l Hl). nia.
Qed.

(** The offset [(pageNum - 1) * limitNum] of a parsed page number and a
    positive limit: either it is a positive integer, or the handler skips
    nothing. *)
Lemma offset_cases pageNum l :
  0 < l →
  pageNum = NaN ∨ pageNum = NegZero ∨ (∃ n, pageNum = Int n) →
  let offset := Num.mul (Num.sub pageNum (Int 1)) (Int l) in
  (Num.gt offset (Int 0) = true
   ∧ ∃ p, pageNum = Int p ∧ offset = Int ((p - 1) * l) ∧ 0 < (p - 1) * l)
  ∨ (Num.gt offset (Int 0) = false ∧ skipped pageNum l = 0%nat).
Proof.
  intros Hl [->|[->|[p ->]]]; simpl.
  - by right.
  - right. unfold Num.signed. destruct ((0 - 1) * l =? 0) eqn:E; [lia|].
    split; [|done]. unfold Num.gt, Num.lt; simpl. lia.
  - unfold Num.signed. destruct ((p - 1) * l =? 0) eqn:E.
    + right. split; [|lia]. unfold Num.zero. by destruct (xorb _ _).
    + destruct (decide (0 < (p - 1) * l)).
      * left. split; [unfold Num.gt, Num.lt; simpl; lia | eauto].
      * right. split; [unfold Num.gt, Num.lt; simpl; lia | lia].
Qed.

Lemma lt_Int a b : Num.lt (Int a) (Int b) = bool_decide (a < b).
Proof. unfold Num.lt; simpl. case_bool_decide; lia. Qed.

Lemma gt_Int a b : Num.gt (Int a) (Int b) = bool_decide (b < a).
Proof. apply lt_Int. Qed.

Lemma rank_signed s z : Num.rank (Num.signed s z) = Some (0, z).
Proof.
  unfold Num.signed. destruct (z =? 0) eqn:E; [|done].
  apply Z.eqb_eq in E as ->. by destruct s.
Qed.

Lemma lt_signed s z n : Num.lt (Num.signed s z) (Int n) = (z <? n).
Proof. unfold Num.lt. rewrite rank_signed. simpl. lia. Qed.

Lemma eq_signed s z n : Num.eq (Num.signed s z) (Int n) = (z =? n).
Proof. unfold Num.eq. rewrite rank_signed. simpl. lia. Qed.

Lemma le_signed s z n : Num.le (Num.signed s z) (Int n) = (z <=? n).
Proof. unfold Num.le. rewrite lt_signed, eq_signed. lia. Qed.

(** [ceiling] is the rounded-up quotient: the least [n] with [n * d ≥ x]. *)
Lemma ceiling_spec x d :
  0 < d → (ceiling x d - 1) * d < x ≤ ceiling x d * d.
Proof.
  intros Hd. unfold ceiling.
  pose proof (Z.div_mod (x + d - 1) d ltac:(lia)).
  pose proof (Z.mod_pos_bound (x + d - 1) d Hd). nia.
Qed.

Lemma ceiling_unique x d n : 0 < d → (n - 1) * d < x ≤ n * d → ceiling x d = n.
Proof. intros Hd Hn. pose proof (ceiling_spec x d Hd). nia. Qed.

(** The way the handlers round up agrees with [ceiling]. *)
Lemma neg_div_ceiling x d : 0 < d → - ((- x) / d) = ceiling x d.
Proof.
  intros Hd. symmetry. apply ceiling_unique; [done|].
  pose proof (Z.div_mod (- x) d ltac:(lia)).
  pose proof (Z.mod_pos_bound (- x) d Hd). nia.
Qed.

Lemma ceil_div_ceiling x d :
  0 < d → ∃ s, Num.ceil_div (Int x) (Int d) = Num.signed s (ceiling x d).
Proof.
  intros Hd. unfold Num.ceil_div; simpl.
  destruct (d =? 0) eqn:E; [lia|]. rewrite neg_div_ceiling by done. eauto.
Qed.

(** A positive offset computed from parsed numbers is a positive integer. *)
Lemma offset_positive pageNum limitNum :
  pageNum = NaN ∨ pageNum = NegZero ∨ (∃ n, pageNum = Int n) →
  limitNum = NaN ∨ limitNum = NegZero ∨ (∃ n, limitNum = Int n) →
  Num.gt (Num.mul (Num.sub pageNum (Int 1)) limitNum) (Int 0) = true →
  ∃ n, Num.mul (Num.sub pageNum (Int 1)) limitNum = Int n ∧ 0 < n.
Proof.
  intros [->|[->|[p ->]]] [->|[->|[l ->]]]; simpl; try done;
    unfold Num.signed, Num.zero;
    repeat match goal with
      | |- context [if ?b then _ else _] => destruct b eqn:?
      end; try done;
    unfold Num.gt, Num.lt; simpl; intros H; eexists; split; try done; lia.
Qed.

(** ** The order of a query *)

Module FirestoreFacts.
Import Firestore.

Lemma bytes_inj s1 s2 : bytes s1 = bytes s2 → s1 = s2.
Proof.
  unfold bytes. intros H.
  rewrite <- (string_of_list_ascii_of_string s1), <- (string_of_list_ascii_of_string s2).
  f_equal. revert H. generalize (list_ascii_of_string s1) (list_ascii_of_string s2).
  induction l as [|a l IH]; intros [|b l'] H; simplify_eq/=; [done|].
  f_equal; [|by apply IH].
  rewrite <- (ascii_nat_embedding a), <- (ascii_nat_embedding b). congruence.
Qed.

Lemma sort_key_inj q a b : sort_key q a = sort_key q b → a.1 = b.1.
Proof. unfold sort_key. intros H. apply bytes_inj. congruence. Qed.

Lemma precedes_irrefl q a : ¬ precedes q a a.
Proof. unfold precedes. destruct (descending q); apply irreflexivity, _. Qed.

Lemma precedes_trans q a b c : precedes q a b → precedes q b c → precedes q a c.
Proof.
  unfold precedes. destruct (descending q); intros H1 H2.
  - by trans (sort_key q b).
  - by trans (sort_key q b).
Qed.

Lemma precedes_asym q a b : precedes q a b → ¬ precedes q b a.
Proof. intros H1 H2. exact (precedes_irrefl q a (precedes_trans q a b a H1 H2)). Qed.

Lemma precedes_trichotomy q a b :
  precedes q a b ∨ sort_key q a = sort_key q b ∨ precedes q b a.
Proof.
  unfold precedes.
  destruct (trichotomy lexico (sort_key q a) (sort_key q b)) as [?|[?|?]];
    destruct (descending q); auto.
Qed.

(** [precedes] only looks at the sort keys. *)
Lemma precedes_key_l q a a' b :
  sort_key q a = sort_key q a' → precedes q a b → precedes q a' b.
Proof. unfold precedes. intros ->. done. Qed.

Global Instance not_after_total q : Total (not_after q).
Proof.
  intros a b. unfold not_after.
  destruct (decide (precedes q b a)) as [H|H]; [right | left; done].
  by apply precedes_asym.
Qed.

Global Instance not_after_trans q : Transitive (not_after q).
Proof.
  intros a b c Hab Hbc Hca. unfold not_after in *.
  destruct (precedes_trichotomy q a b) as [H|[H|H]]; [| |done].
  - apply Hbc. by apply (precedes_trans q c a b).
  - apply Hbc. unfold precedes in *. rewrite <- H. done.
Qed.

Lemma ordered_Permutation q c :
  ordered q c ≡ₚ filter (λ d, candidate q d) (map_to_list c).
Proof. apply merge_sort_Permutation. Qed.

Lemma ordered_NoDup_ids q c : NoDup (ordered q c).*1.
Proof.
  rewrite ordered_Permutation.
  eapply sublist_NoDup; [apply (NoDup_fst_map_to_list c)|].
  apply fmap_sublist, sublist_filter.
Qed.

(** With distinct ids, a list that is sorted is strictly sorted. *)
Lemma strictly_sorted q (l : list document) :
  StronglySorted (not_after q) l → NoDup l.*1 → StronglySorted (precedes q) l.
Proof.
  induction 1 as [|x l Hl IH Hx]; intros Hnd; [constructor|].
  rewrite fmap_cons in Hnd. apply NoDup_cons in Hnd as [Hx1 Hnd].
  constructor; [by apply IH|].
  rewrite Forall_forall in Hx |- *. intros y Hy.
  destruct (precedes_trichotomy q x y) as [H|[H|H]]; [done| |].
  - exfalso. apply Hx1. rewrite (sort_key_inj q x y H).
    by apply list_elem_of_fmap_2.
  - by destruct (Hx y Hy).
Qed.

Lemma ordered_sorted q c : StronglySorted (precedes q) (ordered q c).
Proof.
  apply strictly_sorted; [|apply ordered_NoDup_ids].
  apply (StronglySorted_merge_sort _).
Qed.

Lemma filter_all {A} (P : A → Prop) `{!∀ x, Decision (P x)} (l : list A) :
  Forall P l → filter P l = l.
Proof.
  induction 1 as [|x l Hx _ IH]; [done|].
  by rewrite filter_cons_True, IH.
Qed.

(** Resuming after the document at position [i] of a strictly sorted list
    skips exactly the first [i + 1] documents. *)
Lemma filter_after_cursor q (l : list document) i cur :
  StronglySorted (precedes q) l → l !! i = Some cur →
  filter (precedes q cur) l = drop (S i) l.
Proof.
  intros Hl. revert i. induction Hl as [|x l Hl IH Hx]; intros i Hi; [done|].
  destruct i as [|i]; simplify_eq/=.
  - rewrite filter_cons_False by apply precedes_irrefl.
    rewrite drop_0. by apply filter_all.
  - rewrite filter_cons_False; [by apply IH|].
    apply precedes_asym. rewrite Forall_forall in Hx.
    apply Hx. by eapply list_elem_of_lookup_2.
Qed.

(** A positive integer limit truncates the selection. *)
Lemma get_limit_pos il q c n :
  limit_to q = Some (Int n) → 0 < n →
  get il q c = Ok (take (Z.to_nat n) (selected q c)).
Proof.
  intros Hq Hn. unfold get. rewrite Hq.
  destruct (0 <? n) eqn:E; [done | lia].
Qed.

(** The skip of [getAllTodos]: fetch the first [n] documents and resume
    after the last of them.  Either there is no document at all, or the
    resumed query selects the documents from position [n] on. *)
Lemma resume_after_skip q c (n : nat) :
  (0 < n)%nat →
  match last (take n (ordered q c)) with
  | Some cur => filter (precedes q cur) (ordered q c) = drop n (ordered q c)
  | None => ordered q c = []
  end.
Proof.
  intros Hn. pose proof (ordered_sorted q c) as Hs.
  set (L := ordered q c) in *.
  destruct (last (take n L)) as [cur|] eqn:Hlast.
  - rewrite last_lookup, length_take in Hlast.
    assert (L ≠ []) as HL.
    { intros E. rewrite E, take_nil in Hlast. done. }
    assert (0 < length L)%nat by (destruct L; simpl; [done | lia]).
    rewrite lookup_take_lt in Hlast by lia.
    rewrite (filter_after_cursor q L _ cur Hs Hlast).
    destruct (decide (n ≤ length L)%nat).
    + f_equal. lia.
    + rewrite !drop_ge by lia. done.
  - apply last_None, take_nil_inv in Hlast as [?|?]; [lia | done].
Qed.

Lemma selected_no_cursor q c : start_after q = None → selected q c = ordered q c.
Proof. unfold selected. by intros ->. Qed.

Lemma selected_limit n q c : selected (limit n q) c = selected q c.
Proof. done. Qed.

Lemma selected_startAfter cur q c :
  selected (startAfter cur q) c = filter (precedes q cur) (ordered q c).
Proof. done. Qed.

End FirestoreFacts.

(** ** The list handler *)

Section list_facts.

Variable Date_parse : string → option Z.
Variable NODE_ENV : option string.
Variable invalid_limit : number → list document → result (list document).

Local Abbreviation list_todos := (getAllTodos Date_parse NODE_ENV invalid_limit).

Lemma planned_no_cursor req : Firestore.start_after (planned_query req) = None.
Proof.
  unfold planned_query. by destruct (status_filter (Request.status req)).
Qed.

(** With a positive integer limit the handler answers 200 with the window
    of the ordered candidates that starts after the skipped documents, and
    with the raw parsed page number in the metadata. *)
Lemma getAllTodos_listing clock db req l :
  parseInt (default "20" (Request.limit req)) = Int l → 0 < l →
  let pageNum := parseInt (default "1" (Request.page req)) in
  let L := Firestore.ordered (planned_query req) db in
  let total := Z.of_nat (length L) in
  list_todos clock db req =
    {| Response.status := 200;
       Response.success := true;
       Response.body :=
         Listing
           (todosWithDeadlineStatus Date_parse clock 0
              (todo_of_doc <$> take (Z.to_nat l) (drop (skipped pageNum l) L)))
           {| Pagination.page := pageNum;
              Pagination.limit := Int l;
              Pagination.total := total;
              Pagination.totalPages := Num.ceil_div (Int total) (Int l);
              Pagination.hasNextPage :=
                Num.lt pageNum (Num.ceil_div (Int total) (Int l));
              Pagination.hasPrevPage := Num.gt pageNum (Int 1) |} |}.
Proof.
  intros Hl Hpos pageNum L total.
  unfold getAllTodos. rewrite Hl. fold pageNum.
  unfold Firestore.count, bind, try_catch.
  assert (Firestore.selected (planned_query req) db = L) as HL.
  { apply FirestoreFacts.selected_no_cursor, planned_no_cursor. }
  rewrite HL. fold total.
  destruct (offset_cases pageNum l Hpos (parseInt_parsed _))
    as [[Hgt (p & Hp & Hoff & Hlt)]|[Hgt Hskip]]; rewrite Hgt.
  - (* a positive offset: fetch that many documents, resume after the last *)
    rewrite Hoff, Hp. unfold skipped.
    rewrite (FirestoreFacts.get_limit_pos _ _ _ ((p - 1) * l)) by done.
    rewrite !FirestoreFacts.selected_limit, HL.
    pose proof (FirestoreFacts.resume_after_skip (planned_query req) db
                  (Z.to_nat ((p - 1) * l)) ltac:(lia)) as Hskip.
    fold L in Hskip.
    destruct (last (take (Z.to_nat ((p - 1) * l)) L)) as [cur|].
    + rewrite (FirestoreFacts.get_limit_pos _ _ _ l) by done.
      rewrite FirestoreFacts.selected_startAfter.
      change (filter _ (Firestore.ordered _ db))
        with (filter (Firestore.precedes (planned_query req) cur) L).
      by rewrite Hskip.
    + rewrite (FirestoreFacts.get_limit_pos _ _ _ l) by done.
      rewrite FirestoreFacts.selected_limit, HL, Hskip. by rewrite drop_nil.
  - (* no skip *)
    rewrite (FirestoreFacts.get_limit_pos _ _ _ l) by done.
    rewrite FirestoreFacts.selected_limit, HL, Hskip. done.
Qed.

(** A limit that is not a positive integer reaches the store as parsed;
    when the store throws on it, the request is answered 500. *)
Lemma getAllTodos_limit_rejected clock db req message :
  let limitNum := parseInt (default "20" (Request.limit req)) in
  (∀ l, limitNum = Int l → l ≤ 0) →
  (∀ docs, invalid_limit limitNum docs = Throw message) →
  list_todos clock db req =
    {| Response.status := 500;
       Response.success := false;
       Response.body :=
         Failure "Failed to fetch todos" (details_of NODE_ENV message) |}.
Proof.
  intros limitNum Hbad Hthrow.
  assert (∀ q, Firestore.limit_to q = Some limitNum →
               Firestore.get invalid_limit q db = Throw message) as Hget.
  { intros q Hq. unfold Firestore.get. rewrite Hq.
    destruct limitNum as [|l| |] eqn:E; try apply Hthrow.
    destruct (0 <? l) eqn:E0; [|apply Hthrow].
    specialize (Hbad l eq_refl). lia. }
  unfold getAllTodos, Firestore.count, bind, try_catch. fold limitNum.
  destruct (Num.gt _ (Int 0)) eqn:Hgt; [|by rewrite Hget].
  destruct (offset_positive _ _ (parseInt_parsed _) (parseInt_parsed _) Hgt)
    as (n & Hoff & Hn).
  fold limitNum in Hoff. rewrite Hoff.
  rewrite (FirestoreFacts.get_limit_pos _ _ _ n) by done.
  destruct (last _); by rewrite Hget.
Qed.

(** *** Deadline status *)

Lemma sub_Int a b : Num.sub (Int a) (Int b) = Int (a - b).
Proof. by destruct b. Qed.

(** The callback of [todos.map] computes the classifier of the
    specification on the date its deadline field holds. *)
Lemma deadlineStatus_at_classify now todo :
  deadlineStatus_at Date_parse now todo
  = classify (Date_new Date_parse (todo !! "deadline")) now.
Proof.
  unfold deadlineStatus_at, classify.
  destruct (Date_new Date_parse (todo !! "deadline")) as [d|]; [|done].
  simpl time_value. rewrite sub_Int.
  change (1000 * 60 * 60 * 24) with day.
  destruct (ceil_div_ceiling (d - now) day) as [s ->]; [done|].
  by rewrite lt_signed, eq_signed, le_signed.
Qed.

(** The classifier one second late, on time, two days and ten days ahead:
    only a deadline a full day in the past is overdue. *)
Lemma classify_examples T :
  classify (Some (T - 1000)) T = "due-today"
  ∧ classify (Some (T - day)) T = "overdue"
  ∧ classify (Some T) T = "due-today"
  ∧ classify (Some (T + 2 * day)) T = "due-soon"
  ∧ classify (Some (T + 10 * day)) T = "none".
Proof.
  unfold classify.
  replace (T - 1000 - T) with (-1000) by lia.
  replace (T - day - T) with (- day) by lia.
  replace (T - T) with 0 by lia.
  replace (T + 2 * day - T) with (2 * day) by lia.
  replace (T + 10 * day - T) with (10 * day) by lia.
  done.
Qed.





(** *** Pagination *)

Lemma valid_status_truthy s : s ∈ valid_statuses → truthy (Some (VStr s)) = true.
Proof.
  unfold valid_statuses. rewrite !elem_of_cons, elem_of_nil.
  intros [->|[->|[->|[]]]]; done.
Qed.

Lemma status_filter_spec status :
  status_filter status
  = match status with
    | Some s => if bool_decide (s ∈ valid_statuses) then Some s else None
    | None => None
    end.
Proof.
  destruct status as [s|]; [|done]. unfold status_filter.
  case_bool_decide as Hs; [|by rewrite andb_false_r].
  by rewrite valid_status_truthy.
Qed.

Lemma filter_ext_in {A} (P Q : A → Prop) `{!∀ x, Decision (P x)}
    `{!∀ x, Decision (Q x)} (l : list A) :
  (∀ x, x ∈ l → P x ↔ Q x) → filter P l = filter Q l.
Proof.
  induction l as [|x l IH]; intros Hiff; [done|].
  rewrite !filter_cons.
  rewrite IH by (intros y Hy; apply Hiff; by right).
  assert (P x ↔ Q x) as Hx by (apply Hiff; by left).
  destruct (decide (P x)), (decide (Q x)); tauto.
Qed.

(** When every record carries the sort field, the candidates of the planned
    query are the records that match the status predicate. *)
Lemma planned_count db req :
  carries (default "createdAt" (Request.sortBy req)) db →
  Z.of_nat (length (Firestore.ordered (planned_query req) db))
  = count_records (status_predicate (Request.status req)) db.
Proof.
  intros Hc. unfold count_records. f_equal.
  rewrite FirestoreFacts.ordered_Permutation.
  f_equal. apply filter_ext_in. intros [id todo] Hd.
  apply elem_of_map_to_list in Hd. specialize (Hc id todo Hd). simpl in Hc.
  unfold Firestore.candidate, planned_query, status_predicate.
  rewrite status_filter_spec. simpl.
  destruct (Request.status req) as [s|]; simpl.
  - case_bool_decide; simpl.
    + rewrite (bool_decide_eq_true_2 _ Hc), andb_true_r.
      unfold has_status. by rewrite bool_decide_spec.
    + rewrite (bool_decide_eq_true_2 _ Hc). done.
  - rewrite (bool_decide_eq_true_2 _ Hc). done.
Qed.



(** C5.  A status filter that is not one of the three valid values is
    ignored: the request is answered exactly as the same request without a
    status filter, with the same records and the same metadata. *)
Theorem getAllTodos_invalid_status_ignored clock db req s :
  s ∉ valid_statuses →
  list_todos clock db (with_status (Some s) req)
  = list_todos clock db (with_status None req).
Proof.
  intros Hs.
  assert (planned_query (with_status (Some s) req)
          = planned_query (with_status None req)) as Hq.
  { unfold planned_query. rewrite !status_filter_spec. simpl.
    by rewrite (bool_decide_eq_false_2 _ Hs). }
  unfold getAllTodos. by rewrite Hq.
Qed.

(** C7.  A request whose offset [(page - 1) * limit] is at or beyond the
    total of the matching records, as counted by the store for the planned
    query, is answered with an empty page and the metadata of the request,
    in particular without a next page. *)
Theorem getAllTodos_offset_beyond_end clock db req p l total :
  parseInt (default "1" (Request.page req)) = Int p →
  parseInt (default "20" (Request.limit req)) = Int l →
  0 < l →
  Firestore.count (planned_query req) db = Ok total →
  total ≤ (p - 1) * l →
  list_todos clock db req =
    {| Response.status := 200;
       Response.success := true;
       Response.body :=
         Listing []
           {| Pagination.page := Int p;
              Pagination.limit := Int l;
              Pagination.total := total;
              Pagination.totalPages := Int (ceiling total l);
              Pagination.hasNextPage := false;
              Pagination.hasPrevPage := bool_decide (1 < p) |} |}.
Proof.
  intros Hp Hl Hl0 Hcount Hoff.
  pose proof (getAllTodos_listing clock db req l Hl Hl0) as H.
  cbv zeta in H. rewrite Hp in H.
  unfold Firestore.count in Hcount.
  rewrite FirestoreFacts.selected_no_cursor in Hcount by apply planned_no_cursor.
  injection Hcount as Hcount. rewrite Hcount in H.
  assert (0 ≤ total) as Ht by lia.
  rewrite (ceil_div_count total l Ht Hl0), lt_Int, gt_Int in H.
  rewrite H. f_equal. f_equal.
  - rewrite drop_ge by (unfold skipped; lia). by rewrite take_nil.
  - f_equal. apply bool_decide_eq_false_2.
    pose proof (ceiling_spec total l Hl0). nia.
Qed.

(** C8, as the handler has it.  Page and limit are parsed and used as they
    are.  When the limit is a positive integer and the page is not a number
    of at least 1 (non-numeric, zero or negative), the request is neither
    rejected nor clamped: nothing is skipped, the first [limit] matching
    records are returned, and the metadata carries the page as parsed, with
    no previous page. *)
Theorem getAllTodos_page_not_clamped clock db req l :
  parseInt (default "20" (Request.limit req)) = Int l →
  0 < l →
  let pageNum := parseInt (default "1" (Request.page req)) in
  let L := Firestore.ordered (planned_query req) db in
  let total := Z.of_nat (length L) in
  Num.le (Int 1) pageNum = false →
  list_todos clock db req =
    {| Response.status := 200;
       Response.success := true;
       Response.body :=
         Listing
           (todosWithDeadlineStatus Date_parse clock 0
              (todo_of_doc <$> take (Z.to_nat l) L))
           {| Pagination.page := pageNum;
              Pagination.limit := Int l;
              Pagination.total := total;
              Pagination.totalPages := Int (ceiling total l);
              Pagination.hasNextPage := Num.lt pageNum (Int (ceiling total l));
              Pagination.hasPrevPage := false |} |}
  ∧ ¬ rejected_or_clamped (list_todos clock db req).
Proof.
  intros Hl Hl0 pageNum L total Hpage.
  pose proof (getAllTodos_listing clock db req l Hl Hl0) as H.
  cbv zeta in H. fold pageNum L total in H.
  assert (0 ≤ total) as Ht by (unfold total; lia).
  rewrite (ceil_div_count total l Ht Hl0) in H.
  assert (skipped pageNum l = 0%nat ∧ Num.gt pageNum (Int 1) = false)
    as [Hskip Hprev].
  { destruct pageNum as [|p| |[]]; try done.
    unfold Num.le, Num.lt, Num.eq in Hpage; simpl in Hpage.
    unfold skipped. rewrite gt_Int. split; [nia|].
    apply bool_decide_eq_false_2. lia. }
  rewrite Hskip, Hprev, drop_0 in H. split; [exact H|].
  rewrite H. intros [Hs|(data & pg & Hb & Hp1 & _)]; [done|].
  simpl in Hb. injection Hb as _ <-. simpl in Hp1. congruence.
Qed.

End list_facts.


(** ** The stats handler *)

Section stats_facts.

Variable Date_parse : string → option Z.
Variable NODE_ENV : option string.
Variable invalid_limit : number → list document → result (list document).

Local Abbreviation todo_stats := (getTodoStats Date_parse NODE_ENV invalid_limit).

(** Number of documents of a list whose data satisfies [P]. *)
Local Notation "'cnt' P docs" :=
  (Z.of_nat (length (filter (λ d : document, P d.2) docs)))
  (at level 10, P at level 9, docs at level 9, only parsing).

Lemma cnt_cons (P : object → Prop) `{!∀ o, Decision (P o)} (d : document) docs :
  cnt P (d :: docs) = (if decide (P d.2) then 1 else 0) + cnt P docs.
Proof. rewrite filter_cons. destruct (decide (P d.2)); simpl; lia. Qed.

Lemma bool_is_decide (b : bool) (P : Prop) `{!Decision P} :
  (b = true ↔ P) → b = bool_decide P.
Proof. intros Hb. case_bool_decide; destruct b; intuition congruence. Qed.

(** The overdue test of the loop is the overdue predicate. *)
Lemma overdue_test now (todo : object) :
  truthy (todo !! "deadline")
  && Num.lt (time_value (Date_new Date_parse (todo !! "deadline"))) (Int now)
  && negb (bool_decide (todo !! "status" = Some (VStr "completed")))
  = bool_decide (is_overdue Date_parse now todo).
Proof.
  apply bool_is_decide.
  unfold is_overdue, deadline_of, has_status.
  rewrite !andb_true_iff, negb_true_iff, bool_decide_eq_false.
  destruct (truthy (todo !! "deadline")); [|intuition congruence].
  destruct (Date_new Date_parse (todo !! "deadline")) as [d|]; simpl;
    [|unfold Num.lt; simpl; intuition congruence].
  rewrite lt_Int, bool_decide_eq_true. intuition.
Qed.

Lemma tally_step now total pending inProgress completed overdue (d : document) :
  tally Date_parse now (total, pending, inProgress, completed, overdue) d
  = (total + 1,
     if bool_decide (d.2 !! "status" = Some (VStr "pending"))
     then pending + 1 else pending,
     if bool_decide (d.2 !! "status" = Some (VStr "in-progress"))
     then inProgress + 1 else inProgress,
     if bool_decide (d.2 !! "status" = Some (VStr "completed"))
     then completed + 1 else completed,
     if bool_decide (is_overdue Date_parse now d.2)
     then overdue + 1 else overdue).
Proof. unfold tally. by rewrite overdue_test. Qed.

(** The counters after the loop over [docs]. *)
Lemma foldl_tally now docs total pending inProgress completed overdue :
  foldl (tally Date_parse now) (total, pending, inProgress, completed, overdue) docs
  = (total + Z.of_nat (length docs),
     pending + cnt (has_status "pending") docs,
     inProgress + cnt (has_status "in-progress") docs,
     completed + cnt (has_status "completed") docs,
     overdue + cnt (is_overdue Date_parse now) docs).
Proof.
  revert total pending inProgress completed overdue.
  induction docs as [|d docs IH]; intros; cbn [foldl].
  - simpl. repeat f_equal; lia.
  - rewrite tally_step, IH, !cnt_cons. unfold has_status.
    repeat match goal with |- (_, _) = (_, _) => f_equal end;
      cbn [length]; repeat case_bool_decide; repeat case_decide;
      try done; lia.
Qed.

(** Without filter and order every record is a candidate. *)
Lemma snapshot_all db :
  Firestore.selected Firestore.todos db ≡ₚ map_to_list db.
Proof.
  unfold Firestore.selected; simpl.
  rewrite FirestoreFacts.ordered_Permutation.
  by rewrite FirestoreFacts.filter_all by by apply Forall_forall.
Qed.

(** The response of the stats handler in terms of the collection. *)
Lemma stats_response now db :
  todo_stats now db =
    {| Response.status := 200;
       Response.success := true;
       Response.body :=
         Statistics
           {| Stats.total := Z.of_nat (size db);
              Stats.pending := count_records (has_status "pending") db;
              Stats.inProgress := count_records (has_status "in-progress") db;
              Stats.completed := count_records (has_status "completed") db;
              Stats.overdue := count_records (is_overdue Date_parse now) db;
              Stats.completionRate :=
                completionRate_of
                  (count_records (has_status "completed") db)
                  (Z.of_nat (size db)) |} |}.
Proof.
  unfold getTodoStats, Firestore.get, bind, try_catch; simpl.
  rewrite foldl_tally. rewrite !snapshot_all, length_map_to_list.
  done.
Qed.

(** C3.  The stats operation reports the number of records as total, the
    number of records of each status as pending, inProgress and completed,
    and as overdue the number of records whose deadline is strictly before
    now and whose status is not completed.  For the sample collection (two
    completed records, one of them with a past deadline, one pending record
    with a past deadline, one record in progress) this gives total 4,
    completed 2 and overdue 1. *)
Theorem getTodoStats_counts_records now db :
  (∃ s,
     todo_stats now db =
       {| Response.status := 200; Response.success := true;
          Response.body := Statistics s |}
     ∧ Stats.total s = Z.of_nat (size db)
     ∧ Stats.pending s = count_records (has_status "pending") db
     ∧ Stats.inProgress s = count_records (has_status "in-progress") db
     ∧ Stats.completed s = count_records (has_status "completed") db
     ∧ Stats.overdue s = count_records (is_overdue Date_parse now) db)
  ∧ getTodoStats Date_parse_sample NODE_ENV invalid_limit sample_now sample_db =
      {| Response.status := 200; Response.success := true;
         Response.body :=
           Statistics
             {| Stats.total := 4; Stats.pending := 1; Stats.inProgress := 1;
                Stats.completed := 2; Stats.overdue := 1;
                Stats.completionRate := Int 50 |} |}.
Proof.
  split.
  - eexists. split; [apply stats_response|]. simpl. done.
  - by vm_compute.
Qed.

Lemma completionRate_of_rate completed total :
  0 ≤ total → completionRate_of completed total = rate completed total.
Proof.
  intros Ht. unfold completionRate_of, rate.
  case_bool_decide; destruct (0 <? total) eqn:E; try done; lia.
Qed.


(** Each record falls in exactly one of four classes: one of the three
    status buckets, or a status outside the enumeration. *)
Lemma buckets_partition (docs : list document) :
  cnt (has_status "pending") docs + cnt (has_status "in-progress") docs
  + cnt (has_status "completed") docs + cnt (λ todo, ¬ enumerated todo) docs
  = Z.of_nat (length docs).
Proof.
  induction docs as [|d docs IH]; [done|].
  rewrite !filter_cons.
  assert (enumerated d.2 ↔
            has_status "pending" d.2 ∨ has_status "in-progress" d.2
            ∨ has_status "completed" d.2) as He.
  { unfold enumerated, valid_statuses.
    rewrite !Exists_cons, Exists_nil. tauto. }
  destruct (decide (has_status "pending" d.2)) as [H1|H1],
    (decide (has_status "in-progress" d.2)) as [H2|H2],
    (decide (has_status "completed" d.2)) as [H3|H3],
    (decide (¬ enumerated d.2)) as [H4|H4];
    cbn [length]; try lia; exfalso; unfold has_status in *;
    intuition congruence.
Qed.

Lemma cnt_none (P : object → Prop) `{!∀ o, Decision (P o)} db :
  map_Forall (λ _ todo, ¬ P todo) db → count_records P db = 0.
Proof.
  intros Hall. unfold count_records.
  apply map_Forall_to_list in Hall.
  induction Hall as [|[id todo] docs Hd _ IH]; [done|].
  simpl in Hd. by rewrite filter_cons_False.
Qed.

Lemma count_records_insert (P : object → Prop) `{!∀ o, Decision (P o)}
    (db : collection) id todo :
  db !! id = None →
  count_records P (<[ id := todo ]> db)
  = (if decide (P todo) then 1 else 0) + count_records P db.
Proof.
  intros Hid. unfold count_records.
  rewrite (map_to_list_insert db id todo Hid), filter_cons. simpl.
  destruct (decide (P todo)); simpl; lia.
Qed.

(** C10.  When every record has one of the three enumerated statuses, the
    three status counts add up to the total.  In general the total exceeds
    their sum by the number of records whose status is outside the
    enumeration: such a record is counted in the total, which is the
    denominator of the completion rate, and in no status bucket; adding one
    to the collection raises the total by one and leaves the three status
    counts as they were. *)
Theorem getTodoStats_buckets now db :
  ∃ s,
    todo_stats now db =
      {| Response.status := 200; Response.success := true;
         Response.body := Statistics s |}
    ∧ (map_Forall (λ _ todo, enumerated todo) db →
       Stats.pending s + Stats.inProgress s + Stats.completed s = Stats.total s)
    ∧ Stats.pending s + Stats.inProgress s + Stats.completed s
      + count_records (λ todo, ¬ enumerated todo) db = Stats.total s
    ∧ Stats.completionRate s = rate (Stats.completed s) (Stats.total s)
    ∧ (∀ id todo, db !! id = None → ¬ enumerated todo →
       ∃ s',
         todo_stats now (<[ id := todo ]> db) =
           {| Response.status := 200; Response.success := true;
              Response.body := Statistics s' |}
         ∧ Stats.total s' = Stats.total s + 1
         ∧ Stats.pending s' = Stats.pending s
         ∧ Stats.inProgress s' = Stats.inProgress s
         ∧ Stats.completed s' = Stats.completed s
         ∧ Stats.completionRate s'
           = rate (Stats.completed s) (Stats.total s + 1)).
Proof.
  eexists. split; [apply stats_response|]. simpl.
  assert (count_records (has_status "pending") db
          + count_records (has_status "in-progress") db
          + count_records (has_status "completed") db
          + count_records (λ todo, ¬ enumerated todo) db
          = Z.of_nat (size db)) as Hsum.
  { unfold count_records. rewrite buckets_partition.
    by rewrite length_map_to_list. }
  split; [|split; [done|split]].
  - intros Hall. rewrite <- Hsum, (cnt_none (λ todo, ¬ enumerated todo)); [lia|].
    intros id todo Hd. specialize (Hall id todo Hd). simpl in *. tauto.
  - apply completionRate_of_rate. lia.
  - intros id todo Hid Hout.
    eexists. split; [apply stats_response|]. simpl.
    assert (∀ st, st ∈ valid_statuses → ¬ has_status st todo) as Hno.
    { intros st Hst Hhas. apply Hout. unfold enumerated.
      apply Exists_exists. eauto. }
    rewrite !count_records_insert by done.
    rewrite map_size_insert_None by done.
    rewrite !decide_False by (apply Hno; unfold valid_statuses; set_solver).
    repeat split; try lia.
    rewrite completionRate_of_rate by lia. f_equal; lia.
Qed.

End stats_facts.

(** ** The delete handler *)

Section delete_facts.

Variable NODE_ENV : option string.

(** C9.  Deleting an id that resolves to no record answers 404 with
    [success: false] and the error [Todo not found], and leaves the
    collection as it was. *)
Theorem deleteTodo_not_found db id :
  db !! id = None →
  deleteTodo NODE_ENV db id =
    (db, {| Response.status := 404;
            Response.success := false;
            Response.body := Failure "Todo not found" None |}).
Proof.
  intros Hid. unfold deleteTodo, Firestore.doc_get, bind, try_catch.
  by rewrite Hid.
Qed.

(** An existing record is removed and the request answered with success. *)
Lemma deleteTodo_found db id todo :
  db !! id = Some todo →
  deleteTodo NODE_ENV db id =
    (delete id db,
     {| Response.status := 200;
        Response.success := true;
        Response.body := Message "Todo deleted successfully" |}).
Proof.
  intros Hid. unfold deleteTodo, Firestore.doc_get, bind, try_catch.
  by rewrite Hid.
Qed.

End delete_facts.


(** ** The handlers on the sample data *)

Lemma sample_listing db req l :
  parseInt (default "20" (Request.limit req)) = Int l → 0 < l →
  ∃ data pg,
    sample_list db req =
      {| Response.status := 200; Response.success := true;
         Response.body := Listing data pg |}
    ∧ Pagination.page pg = parseInt (default "1" (Request.page req))
    ∧ Pagination.limit pg = Int l.
Proof.
  intros Hl Hl0. unfold sample_list.
  rewrite (getAllTodos_listing _ _ _ _ _ _ l Hl Hl0). eauto.
Qed.



Lemma getAllTodos_invalid_status_ignored_witness :
  sample_list sample_db (with_status (Some "foo") (sample_request None None None))
  = sample_list sample_db (with_status None (sample_request None None None)).
Proof.
  apply (getAllTodos_invalid_status_ignored Date_parse_sample None
           throwing_limit sample_clock sample_db
           (sample_request None None None) "foo").
  apply (bool_decide_unpack _). vm_compute. exact I.
Defined.

Lemma getAllTodos_offset_beyond_end_witness :
  sample_list sample_db (sample_request None (Some "2") (Some "3")) =
    {| Response.status := 200;
       Response.success := true;
       Response.body :=
         Listing []
           {| Pagination.page := Int 3;
              Pagination.limit := Int 2;
              Pagination.total := 4;
              Pagination.totalPages := Int 2;
              Pagination.hasNextPage := false;
              Pagination.hasPrevPage := true |} |}.
Proof.
  apply (getAllTodos_offset_beyond_end Date_parse_sample None throwing_limit
           sample_clock sample_db (sample_request None (Some "2") (Some "3"))
           3 2 4).
  - reflexivity.
  - reflexivity.
  - lia.
  - vm_compute. reflexivity.
  - lia.
Defined.

Lemma getAllTodos_page_not_clamped_witness :
  ∃ data,
    sample_list sample_db (sample_request None (Some "10") (Some "0")) =
      {| Response.status := 200;
         Response.success := true;
         Response.body :=
           Listing data
             {| Pagination.page := Int 0;
                Pagination.limit := Int 10;
                Pagination.total := 4;
                Pagination.totalPages := Int 1;
                Pagination.hasNextPage := true;
                Pagination.hasPrevPage := false |} |}
    ∧ length data = 4%nat.
Proof.
  destruct (getAllTodos_page_not_clamped Date_parse_sample None throwing_limit
              sample_clock sample_db (sample_request None (Some "10") (Some "0"))
              10 eq_refl ltac:(lia) eq_refl) as [H _].
  eexists. split; [exact H|].
  vm_compute. reflexivity.
Defined.

(** C8 fails as stated: a request for page 0 with limit 10 is answered with
    success, page 0 in the metadata and every record of the sample
    collection; the offset the handler computes is -10. *)
Lemma getAllTodos_page_zero_accepted :
  let r := sample_list sample_db (sample_request None (Some "10") (Some "0")) in
  Response.status r = 200
  ∧ Response.success r = true
  ∧ (∃ data pg, Response.body r = Listing data pg
                ∧ Pagination.page pg = Int 0 ∧ length data = 4%nat)
  ∧ Num.mul (Num.sub (parseInt "0") (Int 1)) (parseInt "10") = Int (-10)
  ∧ ¬ rejected_or_clamped r.
Proof.
  intros r.
  destruct (sample_listing sample_db (sample_request None (Some "10") (Some "0"))
              10 eq_refl ltac:(lia)) as (data & pg & H & Hp & _).
  fold r in H. rewrite H. simpl in Hp |- *.
  split; [done|]. split; [done|]. split; [|split; [done|]].
  - exists data, pg. split; [done|]. split; [done|].
    assert (Response.body r = Listing data pg) as Hb by by rewrite H.
    vm_compute in Hb. injection Hb as <- _. reflexivity.
  - intros [Hs|(data' & pg' & Hb & Hp1 & _)]; [done|].
    simpl in Hb. injection Hb as _ <-. rewrite Hp in Hp1. done.
Qed.

(** C6 at a deadline one second in the past: the list operation labels the
    record due-today, although its deadline is before now and the stats
    operation counts the same record as overdue. *)
Theorem getAllTodos_one_second_late :
  (∃ data pg,
     Response.body (sample_list late_db (sample_request None None None))
     = Listing data pg
     ∧ (λ todo : object,
          (deadline_of Date_parse_sample todo, todo !! "deadlineStatus"))
       <$> data
       = [(Some (sample_now - 1000), Some (VStr "due-today"))])
  ∧ (∃ s,
       Response.body
         (getTodoStats Date_parse_sample None throwing_limit sample_now late_db)
       = Statistics s
       ∧ Stats.overdue s = 1).
Proof.
  split.
  - eexists _, _. split; [vm_compute; reflexivity|]. vm_compute. reflexivity.
  - eexists. split; [vm_compute; reflexivity|]. reflexivity.
Qed.

Lemma deleteTodo_not_found_witness :
  deleteTodo None sample_db "t9" =
    (sample_db, {| Response.status := 404;
                   Response.success := false;
                   Response.body := Failure "Todo not found" None |}).
Proof. apply (deleteTodo_not_found None sample_db "t9"). reflexivity. Defined.

Lemma getTodoStats_buckets_witness :
  ∃ s,
    getTodoStats Date_parse_sample None throwing_limit sample_now sample_db =
      {| Response.status := 200; Response.success := true;
         Response.body := Statistics s |}
    ∧ Stats.pending s + Stats.inProgress s + Stats.completed s = Stats.total s.
Proof.
  destruct (getTodoStats_buckets Date_parse_sample None throwing_limit
              sample_now sample_db) as (s & H & Hsum & _).
  exists s. split; [exact H|]. apply Hsum.
  apply (bool_decide_unpack _). vm_compute. exact I.
Defined.


(** * Further properties of the handlers *)

(** ** The list handler: which records, in which order *)

Section list_records.

Variable Date_parse : string → option Z.
Variable NODE_ENV : option string.
Variable invalid_limit : number → list document → result (list document).

Local Abbreviation list_todos := (getAllTodos Date_parse NODE_ENV invalid_limit).

(** The callback of [todos.map] adds the status to each record and changes
    nothing else. *)
Lemma todosWithDeadlineStatus_Forall2 clock tick todos :
  Forall2 (λ (todo out : object),
             ∃ st, out = <[ "deadlineStatus" := VStr st ]> todo)
          todos (todosWithDeadlineStatus Date_parse clock tick todos).
Proof.
  revert tick. induction todos as [|todo rest IH]; intros tick; simpl;
    [constructor|].
  destruct (truthy (todo !! "deadline")); constructor; eauto.
Qed.

Lemma candidate_planned req (d : document) :
  Firestore.candidate (planned_query req) d = true →
  status_predicate (Request.status req) d.2
  ∧ is_Some (d.2 !! default "createdAt" (Request.sortBy req)).
Proof.
  unfold Firestore.candidate, planned_query, status_predicate.
  rewrite status_filter_spec. simpl.
  destruct (Request.status req) as [s|]; simpl.
  - case_bool_decide; simpl; rewrite ?andb_true_iff, !bool_decide_eq_true;
      unfold has_status; tauto.
  - rewrite bool_decide_eq_true. tauto.
Qed.

Lemma ordered_elem_of q db (d : document) :
  d ∈ Firestore.ordered q db →
  db !! d.1 = Some d.2 ∧ Firestore.candidate q d = true.
Proof.
  rewrite FirestoreFacts.ordered_Permutation, list_elem_of_filter.
  intros [Hc Hd]. destruct d as [id data].
  apply elem_of_map_to_list in Hd. split; [done|].
  by apply Is_true_true.
Qed.

(** The page of a list request holds stored records only, each matching the
    status filter and carrying the sort field, strictly ascending in the
    order of the query (sort field in the requested direction, then document
    id), so no record occurs twice. *)
Theorem getAllTodos_sorted_matching clock db req l :
  parseInt (default "20" (Request.limit req)) = Int l → 0 < l →
  ∃ docs pg,
    list_todos clock db req =
      {| Response.status := 200; Response.success := true;
         Response.body :=
           Listing (todosWithDeadlineStatus Date_parse clock 0 (todo_of_doc <$> docs))
                   pg |}
    ∧ StronglySorted (Firestore.precedes (planned_query req)) docs
    ∧ NoDup docs.*1
    ∧ Forall (λ d : document,
                db !! d.1 = Some d.2
                ∧ status_predicate (Request.status req) d.2
                ∧ is_Some (d.2 !! default "createdAt" (Request.sortBy req)))
             docs.
Proof.
  intros Hl Hl0.
  pose proof (getAllTodos_listing Date_parse NODE_ENV invalid_limit
                clock db req l Hl Hl0) as H. cbv zeta in H.
  set (L := Firestore.ordered (planned_query req) db) in *.
  set (k := skipped (parseInt (default "1" (Request.page req))) l) in *.
  eexists (take (Z.to_nat l) (drop k L)), _. split; [exact H|].
  assert (take (Z.to_nat l) (drop k L) `sublist_of` L) as Hsub.
  { etrans; [apply sublist_take | apply sublist_drop]. }
  split; [|split].
  - pose proof (FirestoreFacts.ordered_sorted (planned_query req) db) as Hs.
    fold L in Hs. rewrite <- (take_drop k L) in Hs.
    apply StronglySorted_app in Hs as (_ & _ & Hs).
    rewrite <- (take_drop (Z.to_nat l) (drop k L)) in Hs.
    by apply StronglySorted_app in Hs as (_ & Hs & _).
  - eapply sublist_NoDup; [apply (FirestoreFacts.ordered_NoDup_ids (planned_query req) db)|].
    by apply fmap_sublist.
  - apply Forall_forall. intros d Hd.
    assert (d ∈ L) as HdL by (eapply elem_of_sublist; eauto).
    apply ordered_elem_of in HdL as [Hdb Hc].
    apply candidate_planned in Hc as [? ?]. done.
Qed.

(** Pages are consecutive windows of the ordered matching records: on page
    [p] with limit [l] the record at position [j] is the record at position
    [(p - 1) * l + j] of the whole ordered list, and the page ends where the
    list ends. *)
Theorem getAllTodos_page_window clock db req p l :
  parseInt (default "1" (Request.page req)) = Int p →
  parseInt (default "20" (Request.limit req)) = Int l →
  0 < p → 0 < l →
  ∃ data pg,
    list_todos clock db req =
      {| Response.status := 200; Response.success := true;
         Response.body := Listing data pg |}
    ∧ ∀ j : nat,
        (Z.of_nat j < l) →
        match Firestore.ordered (planned_query req) db
                !! (Z.to_nat ((p - 1) * l) + j)%nat with
        | Some d =>
            ∃ st, data !! j
                  = Some (<[ "deadlineStatus" := VStr st ]> (todo_of_doc d))
        | None => data !! j = None
        end.
Proof.
  intros Hp Hl Hp0 Hl0.
  pose proof (getAllTodos_listing Date_parse NODE_ENV invalid_limit
                clock db req l Hl Hl0) as H. cbv zeta in H.
  rewrite Hp in H. unfold skipped in H.
  set (L := Firestore.ordered (planned_query req) db) in *.
  set (k := Z.to_nat ((p - 1) * l)) in *.
  eexists _, _. split; [exact H|]. intros j Hj.
  pose proof (todosWithDeadlineStatus_Forall2 clock 0
                (todo_of_doc <$> take (Z.to_nat l) (drop k L))) as HF.
  assert ((todo_of_doc <$> take (Z.to_nat l) (drop k L)) !! j
          = todo_of_doc <$> L !! (k + j)%nat) as Hj'.
  { rewrite list_lookup_fmap, lookup_take_lt by lia. by rewrite lookup_drop. }
  destruct (L !! (k + j)%nat) as [d|]; simpl in Hj'.
  - destruct (Forall2_lookup_l _ _ _ _ _ HF Hj') as (out & Hout & st & ->).
    eauto.
  - destruct (todosWithDeadlineStatus Date_parse clock 0
                (todo_of_doc <$> take (Z.to_nat l) (drop k L)) !! j)
      as [out|] eqn:Hout; [|done].
    destruct (Forall2_lookup_r _ _ _ _ _ HF Hout) as (todo & Htodo & _).
    congruence.
Qed.

(** [hasNextPage] says whether matching records remain after the page: it is
    true exactly when [page * limit] is below the total. *)
Theorem getAllTodos_hasNextPage_remaining clock db req p l :
  parseInt (default "1" (Request.page req)) = Int p →
  parseInt (default "20" (Request.limit req)) = Int l →
  0 < l →
  ∃ data pg,
    list_todos clock db req =
      {| Response.status := 200; Response.success := true;
         Response.body := Listing data pg |}
    ∧ Pagination.hasNextPage pg = bool_decide (p * l < Pagination.total pg).
Proof.
  intros Hp Hl Hl0.
  pose proof (getAllTodos_listing Date_parse NODE_ENV invalid_limit
                clock db req l Hl Hl0) as H. cbv zeta in H.
  rewrite Hp in H.
  set (t := Z.of_nat (length (Firestore.ordered (planned_query req) db))) in *.
  assert (0 ≤ t) as Ht by (unfold t; lia).
  rewrite (ceil_div_count t l Ht Hl0), lt_Int in H.
  eexists _, _. split; [exact H|]. simpl.
  pose proof (ceiling_spec t l Hl0).
  apply bool_decide_ext. nia.
Qed.

(** Any [order] other than [asc] is served as [desc], the default. *)
Theorem getAllTodos_order_fallback clock db req o :
  o ≠ "asc" →
  list_todos clock db (with_order (Some o) req)
  = list_todos clock db (with_order None req).
Proof.
  intros Ho.
  assert (planned_query (with_order (Some o) req)
          = planned_query (with_order None req)) as Hq.
  { unfold planned_query. simpl. by rewrite (bool_decide_eq_false_2 _ Ho). }
  unfold getAllTodos. by rewrite Hq.
Qed.


(** A record whose deadline field is set to something that is not a date is
    labelled none, like a record without a deadline. *)
Theorem deadlineStatus_at_invalid_date now (todo : object) :
  Date_new Date_parse (todo !! "deadline") = None →
  deadlineStatus_at Date_parse now todo = "none".
Proof. intros Hd. by rewrite deadlineStatus_at_classify, Hd. Qed.

Lemma window_stored q db n k :
  Forall (λ d : document, db !! d.1 = Some d.2)
         (take n (drop k (Firestore.ordered q db))).
Proof.
  apply Forall_forall. intros d Hd.
  assert (d ∈ Firestore.ordered q db) as HdL.
  { eapply elem_of_sublist; [exact Hd|].
    etrans; [apply sublist_take | apply sublist_drop]. }
  by apply ordered_elem_of in HdL as [? _].
Qed.

(** Each record of a page is the record [GET /api/todos/:id] answers for
    the id of its document, with the computed [deadlineStatus] put on top. *)
Theorem getAllTodos_records_as_getTodoById clock db req l :
  parseInt (default "20" (Request.limit req)) = Int l → 0 < l →
  ∃ data pg,
    list_todos clock db req =
      {| Response.status := 200; Response.success := true;
         Response.body := Listing data pg |}
    ∧ Forall (λ out : object,
                ∃ id record st,
                  getTodoById NODE_ENV db id =
                    {| Reply.status := 200; Reply.success := true;
                       Reply.body := Item None record |}
                  ∧ out = <[ "deadlineStatus" := VStr st ]> record)
             data.
Proof.
  intros Hl Hl0.
  pose proof (getAllTodos_listing Date_parse NODE_ENV invalid_limit
                clock db req l Hl Hl0) as H. cbv zeta in H.
  eexists _, _. split; [exact H|].
  apply Forall_forall. intros out Hout.
  apply list_elem_of_lookup in Hout as [j Hj].
  destruct (Forall2_lookup_r _ _ _ _ _
              (todosWithDeadlineStatus_Forall2 clock 0 _) Hj)
    as (todo & Htodo & st & ->).
  rewrite list_lookup_fmap in Htodo.
  destruct (take _ _ !! j) as [d|] eqn:Hd; simplify_eq/=.
  pose proof (list_elem_of_lookup_2 _ _ _ Hd) as Hin.
  eapply Forall_forall in Hin; [|apply window_stored]. simpl in Hin.
  rename Hin into Hst.
  exists d.1, (todo_of_doc d), st. split; [|done].
  unfold getTodoById, Firestore.doc_get, bind, try_catch. rewrite Hst.
  by destruct d.
Qed.

End list_records.

(** ** The stats handler: bounds, and agreement with the list handler *)

Section stats_more.

Variable Date_parse : string → option Z.
Variable NODE_ENV : option string.
Variable invalid_limit : number → list document → result (list document).

Local Abbreviation list_todos := (getAllTodos Date_parse NODE_ENV invalid_limit).

Lemma count_records_bounds (P : object → Prop) `{!∀ o, Decision (P o)} db :
  0 ≤ count_records P db ≤ Z.of_nat (size db).
Proof.
  unfold count_records. rewrite <- length_map_to_list.
  pose proof (length_filter (λ d : document, P d.2) (map_to_list db)). lia.
Qed.

Lemma count_records_disjoint (P Q : object → Prop) `{!∀ o, Decision (P o)}
    `{!∀ o, Decision (Q o)} db :
  (∀ o, P o → ¬ Q o) →
  count_records P db + count_records Q db ≤ Z.of_nat (size db).
Proof.
  intros HPQ. unfold count_records. rewrite <- length_map_to_list.
  induction (map_to_list db) as [|d docs IH]; [done|].
  rewrite !filter_cons. specialize (HPQ d.2).
  destruct (decide (P d.2)), (decide (Q d.2)); cbn [length]; try lia; tauto.
Qed.

(** No counter of the stats is negative or exceeds the total, and overdue
    and completed records together do not exceed it either. *)
Theorem getTodoStats_bounds now db :
  ∃ s,
    getTodoStats Date_parse NODE_ENV invalid_limit now db =
      {| Response.status := 200; Response.success := true;
         Response.body := Statistics s |}
    ∧ 0 ≤ Stats.pending s ≤ Stats.total s
    ∧ 0 ≤ Stats.inProgress s ≤ Stats.total s
    ∧ 0 ≤ Stats.completed s ≤ Stats.total s
    ∧ 0 ≤ Stats.overdue s ≤ Stats.total s
    ∧ Stats.overdue s + Stats.completed s ≤ Stats.total s.
Proof.
  eexists. split; [apply stats_response|]. simpl.
  repeat split; try apply count_records_bounds.
  apply count_records_disjoint. intros o [_ Hn] Hc. done.
Qed.

Lemma count_records_ext (P Q : object → Prop) `{!∀ o, Decision (P o)}
    `{!∀ o, Decision (Q o)} db :
  (∀ o, P o ↔ Q o) → count_records P db = count_records Q db.
Proof.
  intros HPQ. unfold count_records. f_equal. f_equal.
  apply filter_ext_in. intros d _. apply HPQ.
Qed.

(** The totals of the list handler are the counters of the stats handler:
    an unfiltered list reports the stats total, a list filtered by a status
    reports that status's counter.  The records are assumed to carry the
    field they are sorted by. *)
Theorem getAllTodos_total_is_stats_counter clock now db req l :
  parseInt (default "20" (Request.limit req)) = Int l → 0 < l →
  carries (default "createdAt" (Request.sortBy req)) db →
  ∃ data pg s,
    list_todos clock db req =
      {| Response.status := 200; Response.success := true;
         Response.body := Listing data pg |}
    ∧ getTodoStats Date_parse NODE_ENV invalid_limit now db =
        {| Response.status := 200; Response.success := true;
           Response.body := Statistics s |}
    ∧ (Request.status req = None → Pagination.total pg = Stats.total s)
    ∧ (Request.status req = Some "pending" →
       Pagination.total pg = Stats.pending s)
    ∧ (Request.status req = Some "in-progress" →
       Pagination.total pg = Stats.inProgress s)
    ∧ (Request.status req = Some "completed" →
       Pagination.total pg = Stats.completed s).
Proof.
  intros Hl Hl0 Hc.
  pose proof (getAllTodos_listing Date_parse NODE_ENV invalid_limit
                clock db req l Hl Hl0) as H. cbv zeta in H.
  rewrite (planned_count db req Hc) in H.
  eexists _, _, _. split; [exact H|]. split; [apply stats_response|]. simpl.
  repeat split; intros ->.
  - unfold count_records. rewrite <- length_map_to_list. f_equal. f_equal.
    apply FirestoreFacts.filter_all, Forall_forall. done.
  - by apply count_records_ext.
  - by apply count_records_ext.
  - by apply count_records_ext.
Qed.

(** Deleting a record takes it out of the stats: the total drops by one, and
    so does the counter of the record's status. *)
Theorem getTodoStats_after_delete now db id todo :
  db !! id = Some todo →
  ∃ s s',
    getTodoStats Date_parse NODE_ENV invalid_limit now db =
      {| Response.status := 200; Response.success := true;
         Response.body := Statistics s |}
    ∧ getTodoStats Date_parse NODE_ENV invalid_limit now (deleteTodo NODE_ENV db id).1 =
        {| Response.status := 200; Response.success := true;
           Response.body := Statistics s' |}
    ∧ Stats.total s' = Stats.total s - 1
    ∧ Stats.pending s'
      = Stats.pending s - (if decide (has_status "pending" todo) then 1 else 0)
    ∧ Stats.inProgress s'
      = Stats.inProgress s
        - (if decide (has_status "in-progress" todo) then 1 else 0)
    ∧ Stats.completed s'
      = Stats.completed s
        - (if decide (has_status "completed" todo) then 1 else 0)
    ∧ Stats.overdue s'
      = Stats.overdue s
        - (if decide (is_overdue Date_parse now todo) then 1 else 0).
Proof.
  intros Hid. rewrite (deleteTodo_found NODE_ENV db id todo Hid). simpl.
  eexists _, _. split; [apply stats_response|].
  split; [apply stats_response|]. simpl.
  assert (db = <[ id := todo ]> (delete id db)) as Hdb.
  { by rewrite insert_delete_id. }
  rewrite Hdb at 2 4 6 8 10.
  rewrite !count_records_insert by apply lookup_delete_eq.
  rewrite map_size_insert_None by apply lookup_delete_eq.
  repeat split; lia.
Qed.

End stats_more.

(** ** The handlers of a single record *)

Section record_facts.

Variable NODE_ENV : option string.
Variable Todo_fields : object → result object.
Variable toISOString : Z → string.


(** The object [createTodo] hands to the model: the four fields it reads
    from the body. *)
Local Abbreviation create_input body :=
  (with_field "title" (body !! "title")
     (with_field "description" (body !! "description")
        (with_field "status" (body !! "status")
           (with_field "deadline" (body !! "deadline") ∅)))).

(** The object [updateTodo] hands to the model. *)
Local Abbreviation update_input now updates old :=
  (<[ "updatedAt" := VStr (toISOString now) ]> (updates ∪ old)).

Lemma rejection_fails failed message :
  Reply.success (rejection NODE_ENV failed message) = false.
Proof. unfold rejection. by destruct (String.prefix _ _). Qed.

(** *** Delete *)

Lemma deleteTodo_gone db id : (deleteTodo NODE_ENV db id).1 !! id = None.
Proof.
  unfold deleteTodo, Firestore.doc_get, Firestore.doc_delete, bind, try_catch.
  destruct (db !! id) eqn:Hid; simpl; [apply lookup_delete_eq | done].
Qed.

(** Whatever the id, after [deleteTodo] it resolves to no record, every
    other record is as before, and the request succeeds exactly when the
    record existed. *)
Theorem deleteTodo_frame db id :
  (deleteTodo NODE_ENV db id).1 !! id = None
  ∧ (∀ j, j ≠ id → (deleteTodo NODE_ENV db id).1 !! j = db !! j)
  ∧ Response.success (deleteTodo NODE_ENV db id).2 = bool_decide (is_Some (db !! id)).
Proof.
  unfold deleteTodo, Firestore.doc_get, Firestore.doc_delete, bind, try_catch.
  destruct (db !! id) as [todo|] eqn:Hid; simpl.
  - split; [apply lookup_delete_eq|]. split; [|done].
    intros j Hj. by apply lookup_delete_ne.
  - done.
Qed.

(** Deleting the same id a second time answers 404 and changes nothing. *)
Theorem deleteTodo_twice db id :
  deleteTodo NODE_ENV (deleteTodo NODE_ENV db id).1 id =
    ((deleteTodo NODE_ENV db id).1,
     {| Response.status := 404;
        Response.success := false;
        Response.body := Failure "Todo not found" None |}).
Proof.
  pose proof (deleteTodo_gone db id) as Hgone.
  revert Hgone. generalize (deleteTodo NODE_ENV db id).1. intros db' Hgone.
  unfold deleteTodo, Firestore.doc_get, bind, try_catch. by rewrite Hgone.
Qed.

(** *** Fetch *)

(** The record [getTodoById] answers for a stored document has the stored
    fields, and the document id as [id] unless the document stores a field
    of that name, which then wins. *)
Theorem getTodoById_fields db id stored :
  db !! id = Some stored →
  ∃ record,
    getTodoById NODE_ENV db id =
      {| Reply.status := 200; Reply.success := true;
         Reply.body := Item None record |}
    ∧ (∀ f, f ≠ "id" → record !! f = stored !! f)
    ∧ record !! "id" = Some (default (VStr id) (stored !! "id")).
Proof.
  intros Hid. unfold getTodoById, Firestore.doc_get, bind, try_catch.
  rewrite Hid. eexists. split; [done|]. unfold todo_of_doc. simpl. split.
  - intros f Hf. rewrite lookup_union, lookup_singleton_ne by done.
    by destruct (stored !! f).
  - rewrite lookup_union, lookup_singleton_eq.
    by destruct (stored !! "id").
Qed.

(** An id without a record answers 404, in particular every id right after
    it has been deleted. *)
Theorem getTodoById_after_delete db id :
  getTodoById NODE_ENV (deleteTodo NODE_ENV db id).1 id =
    {| Reply.status := 404; Reply.success := false;
       Reply.body := ItemFailure "Todo not found" None |}.
Proof.
  pose proof (deleteTodo_gone db id) as Hgone.
  unfold getTodoById, Firestore.doc_get, bind, try_catch. by rewrite Hgone.
Qed.

(** *** Update *)

(** Updating an id that resolves to no record answers 404 and leaves the
    collection as it was; the body is not looked at. *)
Theorem updateTodo_not_found now db id updates :
  db !! id = None →
  updateTodo NODE_ENV Todo_fields toISOString now db id updates =
    (db, {| Reply.status := 404; Reply.success := false;
            Reply.body := ItemFailure "Todo not found" None |}).
Proof.
  intros Hid. unfold updateTodo, Firestore.doc_get, bind, try_catch.
  by rewrite Hid.
Qed.

(** A successful update: the record existed, the model accepted the stored
    record overlaid with the body and a fresh [updatedAt], the fields the
    model returned replace those of the stored record while its other
    fields stay, and every other record is untouched. *)
Theorem updateTodo_success now db id updates :
  Reply.success (updateTodo NODE_ENV Todo_fields toISOString now db id updates).2 = true →
  ∃ old fields,
    db !! id = Some old
    ∧ Todo_fields (update_input now updates old) = Ok fields
    ∧ updateTodo NODE_ENV Todo_fields toISOString now db id updates =
        (<[ id := fields ∪ old ]> db,
         {| Reply.status := 200; Reply.success := true;
            Reply.body :=
              Item (Some "Todo updated successfully")
                   (fields ∪ {[ "id" := VStr id ]}) |})
    ∧ (∀ j, j ≠ id → (updateTodo NODE_ENV Todo_fields toISOString now db id updates).1 !! j = db !! j)
    ∧ dom (updateTodo NODE_ENV Todo_fields toISOString now db id updates).1 = dom db.
Proof.
  unfold updateTodo, Firestore.doc_get, FirestoreDoc.update, bind, try_catch.
  destruct (db !! id) as [old|] eqn:Hid; [|done].
  destruct (Todo_fields _) as [fields|m] eqn:Hm; simpl;
    [|by rewrite rejection_fails].
  intros _. exists old, fields.
  repeat split; try done.
  - intros j Hj. by apply lookup_insert_ne.
  - apply dom_insert_lookup_L. by rewrite Hid.
Qed.

(** After a successful update, [getTodoById] shows every field the update
    answered with, the [id] apart. *)
Theorem updateTodo_then_getTodoById now db id updates data message :
  (updateTodo NODE_ENV Todo_fields toISOString now db id updates).2 =
    {| Reply.status := 200; Reply.success := true;
       Reply.body := Item message data |} →
  ∃ record,
    getTodoById NODE_ENV (updateTodo NODE_ENV Todo_fields toISOString now db id updates).1 id =
      {| Reply.status := 200; Reply.success := true;
         Reply.body := Item None record |}
    ∧ ∀ f v, f ≠ "id" → data !! f = Some v → record !! f = Some v.
Proof.
  unfold updateTodo, Firestore.doc_get, FirestoreDoc.update, bind, try_catch.
  destruct (db !! id) as [old|] eqn:Hid; [|done].
  destruct (Todo_fields _) as [fields|m]; simpl.
  - intros [= <- <-].
    unfold getTodoById, Firestore.doc_get, bind, try_catch.
    rewrite lookup_insert_eq. eexists. split; [done|].
    intros f v Hf. unfold todo_of_doc. simpl.
    rewrite !lookup_union, !lookup_singleton_ne by done.
    destruct (fields !! f); simpl; [|done].
    intros [= <-]. by destruct (old !! f).
  - intros H. pose proof (rejection_fails "Failed to update todo" m) as Hf.
    rewrite H in Hf. done.
Qed.

(** An update answers 400 exactly when the record exists and the model
    rejects the overlaid record with a message that starts with
    [Validation failed:]; the message is passed on and nothing is stored. *)
Theorem updateTodo_validation_error now db id updates :
  Reply.status (updateTodo NODE_ENV Todo_fields toISOString now db id updates).2 = 400 ↔
  ∃ old m,
    db !! id = Some old
    ∧ Todo_fields (update_input now updates old) = Throw m
    ∧ String.prefix "Validation failed:" m = true
    ∧ updateTodo NODE_ENV Todo_fields toISOString now db id updates =
        (db, {| Reply.status := 400; Reply.success := false;
                Reply.body := ItemFailure m None |}).
Proof.
  unfold updateTodo, Firestore.doc_get, FirestoreDoc.update, bind, try_catch,
    rejection.
  destruct (db !! id) as [old|] eqn:Hid; simpl.
  - destruct (Todo_fields _) as [fields|m] eqn:Hm; simpl.
    + split; [done|]. intros (old' & m & [= <-] & Hm' & _). congruence.
    + destruct (String.prefix _ m) eqn:Hp; simpl.
      * split; [|done]. intros _. exists old, m. done.
      * split; [done|]. intros (old' & m' & [= <-] & Hm' & Hp' & _). congruence.
  - split; [done|]. by intros (? & ? & ? & _).
Qed.

(** The [updatedAt] of an update comes from the clock: an [updatedAt] sent
    in the body is overwritten, so two bodies that differ in it alone are
    served alike. *)
Theorem updateTodo_ignores_sent_updatedAt now db id (updates1 updates2 : object) :
  (∀ f, f ≠ "updatedAt" → updates1 !! f = updates2 !! f) →
  updateTodo NODE_ENV Todo_fields toISOString now db id updates1 = updateTodo NODE_ENV Todo_fields toISOString now db id updates2.
Proof.
  intros Hsame.
  assert (∀ old, update_input now updates1 old = update_input now updates2 old)
    as Hin.
  { intros old. apply map_eq. intros f.
    destruct (decide (f = "updatedAt")) as [->|Hf].
    - by rewrite !lookup_insert_eq.
    - rewrite !lookup_insert_ne, !lookup_union by done. by rewrite Hsame. }
  unfold updateTodo, bind, try_catch.
  destruct (Firestore.doc_get id db) as [[old|]|]; [|done..].
  by rewrite Hin.
Qed.

(** *** Create *)

(** A successful create: the model accepted the four fields read from the
    body, the record it returned is stored under the new id, which was
    free, and every other record is untouched; [getTodoById] of the new id
    then answers with the very data the create answered with. *)
Theorem createTodo_success docId db body :
  Reply.success (createTodo NODE_ENV Todo_fields docId db body).2 = true →
  ∃ todo,
    db !! docId = None
    ∧ Todo_fields (create_input body) = Ok todo
    ∧ createTodo NODE_ENV Todo_fields docId db body =
        (<[ docId := todo ]> db,
         {| Reply.status := 201; Reply.success := true;
            Reply.body :=
              Item (Some "Todo created successfully")
                   (todo ∪ {[ "id" := VStr docId ]}) |})
    ∧ getTodoById NODE_ENV (createTodo NODE_ENV Todo_fields docId db body).1 docId =
        {| Reply.status := 200; Reply.success := true;
           Reply.body := Item None (todo ∪ {[ "id" := VStr docId ]}) |}.
Proof.
  unfold createTodo, FirestoreDoc.add, bind, try_catch.
  destruct (Todo_fields _) as [todo|m] eqn:Hm; simpl;
    [|by rewrite rejection_fails].
  destruct (db !! docId) eqn:Hid; simpl; [done|].
  intros _. exists todo. repeat split; try done.
  unfold getTodoById, Firestore.doc_get, bind, try_catch.
  by rewrite lookup_insert_eq.
Qed.

(** [createTodo] reads title, description, status and deadline from the
    body and nothing else: two bodies that agree on these four fields are
    served alike. *)
Theorem createTodo_reads_four_fields docId db (body1 body2 : object) :
  (∀ f, f ∈ ["title"; "description"; "status"; "deadline"] →
        body1 !! f = body2 !! f) →
  createTodo NODE_ENV Todo_fields docId db body1 = createTodo NODE_ENV Todo_fields docId db body2.
Proof.
  intros Hsame. unfold createTodo.
  rewrite (Hsame "title"), (Hsame "description"), (Hsame "status"),
    (Hsame "deadline") by set_solver.
  done.
Qed.

(** Status 400 is sent exactly for an error of the model whose message
    starts with [Validation failed:]; the message is passed on as the error
    and nothing is stored. *)
Theorem createTodo_validation_error docId db body :
  Reply.status (createTodo NODE_ENV Todo_fields docId db body).2 = 400 ↔
  ∃ m, Todo_fields (create_input body) = Throw m
       ∧ String.prefix "Validation failed:" m = true
       ∧ createTodo NODE_ENV Todo_fields docId db body =
           (db, {| Reply.status := 400; Reply.success := false;
                   Reply.body := ItemFailure m None |}).
Proof.
  unfold createTodo, FirestoreDoc.add, bind, try_catch, rejection.
  destruct (Todo_fields _) as [todo|m] eqn:Hm; simpl.
  - destruct (db !! docId); simpl; split; try done; by intros (? & ? & _).
  - destruct (String.prefix _ m) eqn:Hp; simpl.
    + split; [eauto|done].
    + split; [done|]. intros (m' & [= <-] & Hp' & _). congruence.
Qed.

(** *** All writers *)

(** A request that is answered without success leaves the collection as it
    was: create, update and delete store nothing on failure. *)
Theorem failure_leaves_collection now docId db id body :
  (Reply.success (createTodo NODE_ENV Todo_fields docId db body).2 = false →
   (createTodo NODE_ENV Todo_fields docId db body).1 = db)
  ∧ (Reply.success (updateTodo NODE_ENV Todo_fields toISOString now db id body).2 = false →
     (updateTodo NODE_ENV Todo_fields toISOString now db id body).1 = db)
  ∧ (Response.success (deleteTodo NODE_ENV db id).2 = false → (deleteTodo NODE_ENV db id).1 = db).
Proof.
  split; [|split].
  - unfold createTodo, FirestoreDoc.add, bind, try_catch.
    destruct (Todo_fields _); simpl; [|done].
    destruct (db !! docId); simpl; done.
  - unfold updateTodo, Firestore.doc_get, FirestoreDoc.update, bind, try_catch.
    destruct (db !! id) eqn:Hid; [|done].
    destruct (Todo_fields _); simpl; done.
  - unfold deleteTodo, Firestore.doc_get, Firestore.doc_delete, bind, try_catch.
    destruct (db !! id); simpl; done.
Qed.

End record_facts.

(** ** Error details *)

Section error_details.

Variable Date_parse : string → option Z.
Variable NODE_ENV : option string.
Variable invalid_limit : number → list document → result (list document).
Variable Todo_fields : object → result object.
Variable toISOString : Z → string.


End error_details.

(** ** The further properties on the sample data *)

Lemma getAllTodos_sorted_matching_witness :
  ∃ docs pg,
    sample_list sample_db (sample_request (Some "completed") (Some "3") None) =
      {| Response.status := 200; Response.success := true;
         Response.body :=
           Listing (todosWithDeadlineStatus Date_parse_sample sample_clock 0
                      (todo_of_doc <$> docs)) pg |}
    ∧ NoDup docs.*1
    ∧ Forall (λ d : document, has_status "completed" d.2) docs.
Proof.
  destruct (getAllTodos_sorted_matching Date_parse_sample None throwing_limit
              sample_clock sample_db
              (sample_request (Some "completed") (Some "3") None)
              3 eq_refl ltac:(lia)) as (docs & pg & H & _ & Hnd & Hall).
  exists docs, pg. split; [exact H|]. split; [exact Hnd|].
  eapply Forall_impl; [exact Hall|]. intros d (_ & Hs & _). exact Hs.
Defined.

Lemma getAllTodos_page_window_witness :
  ∃ data pg,
    sample_list sample_db (sample_request None (Some "3") (Some "2")) =
      {| Response.status := 200; Response.success := true;
         Response.body := Listing data pg |}
    ∧ ∃ out, data !! 0%nat = Some out ∧ out !! "title" = Some (VStr "write").
Proof.
  destruct (getAllTodos_page_window Date_parse_sample None throwing_limit
              sample_clock sample_db
              (sample_request None (Some "3") (Some "2"))
              2 3 eq_refl eq_refl ltac:(lia) ltac:(lia)) as (data & pg & H & Hw).
  exists data, pg. split; [exact H|].
  specialize (Hw 0%nat ltac:(lia)).
  destruct (Firestore.ordered _ sample_db !! _) as [d|] eqn:Hd;
    [|vm_compute in Hd; discriminate].
  destruct Hw as [st Hout]. eexists. split; [exact Hout|].
  rewrite lookup_insert_ne by done.
  vm_compute in Hd. injection Hd as <-. vm_compute. reflexivity.
Defined.

Lemma getAllTodos_hasNextPage_remaining_witness :
  ∃ data pg,
    sample_list sample_db (sample_request None (Some "3") (Some "1")) =
      {| Response.status := 200; Response.success := true;
         Response.body := Listing data pg |}
    ∧ Pagination.hasNextPage pg = true.
Proof.
  destruct (getAllTodos_hasNextPage_remaining Date_parse_sample None
              throwing_limit sample_clock sample_db
              (sample_request None (Some "3") (Some "1"))
              1 3 eq_refl eq_refl ltac:(lia)) as (data & pg & H & Hn).
  exists data, pg. split; [exact H|].
  pose proof H as H'. vm_compute in H'. injection H' as _ <-.
  rewrite Hn. vm_compute. reflexivity.
Defined.

Lemma getAllTodos_order_fallback_witness :
  sample_list sample_db (with_order (Some "newest") (sample_request None None None))
  = sample_list sample_db (with_order None (sample_request None None None)).
Proof.
  apply (getAllTodos_order_fallback Date_parse_sample None throwing_limit
           sample_clock sample_db (sample_request None None None) "newest").
  discriminate.
Defined.


Lemma getAllTodos_records_as_getTodoById_witness :
  ∃ data pg,
    sample_list sample_db (sample_request None None None) =
      {| Response.status := 200; Response.success := true;
         Response.body := Listing data pg |}
    ∧ Forall (λ out : object,
                ∃ id record st,
                  getTodoById None sample_db id =
                    {| Reply.status := 200; Reply.success := true;
                       Reply.body := Item None record |}
                  ∧ out = <[ "deadlineStatus" := VStr st ]> record)
             data.
Proof.
  apply (getAllTodos_records_as_getTodoById Date_parse_sample None
           throwing_limit sample_clock sample_db
           (sample_request None None None) 20 eq_refl).
  lia.
Defined.

Lemma getAllTodos_limit_rejected_witness :
  sample_list sample_db (sample_request None (Some "0") None) =
    {| Response.status := 500;
       Response.success := false;
       Response.body := Failure "Failed to fetch todos" None |}.
Proof.
  apply (getAllTodos_limit_rejected Date_parse_sample None throwing_limit
           sample_clock sample_db (sample_request None (Some "0") None)
           "Value for argument limit is not a valid integer.").
  - intros l Hl. vm_compute in Hl. injection Hl as <-. lia.
  - reflexivity.
Defined.


Lemma getAllTodos_total_is_stats_counter_witness :
  ∃ data pg s,
    sample_list sample_db (sample_request (Some "completed") (Some "5") None) =
      {| Response.status := 200; Response.success := true;
         Response.body := Listing data pg |}
    ∧ getTodoStats Date_parse_sample None throwing_limit sample_now sample_db =
        {| Response.status := 200; Response.success := true;
           Response.body := Statistics s |}
    ∧ Pagination.total pg = Stats.completed s.
Proof.
  destruct (getAllTodos_total_is_stats_counter Date_parse_sample None
              throwing_limit sample_clock sample_now sample_db
              (sample_request (Some "completed") (Some "5") None)
              5 eq_refl ltac:(lia))
    as (data & pg & s & H1 & H2 & _ & _ & _ & H).
  { apply (bool_decide_unpack _). vm_compute. exact I. }
  exists data, pg, s. split; [exact H1|]. split; [exact H2|].
  apply H. reflexivity.
Defined.

Lemma getTodoStats_after_delete_witness :
  ∃ s s',
    getTodoStats Date_parse_sample None throwing_limit sample_now sample_db =
      {| Response.status := 200; Response.success := true;
         Response.body := Statistics s |}
    ∧ getTodoStats Date_parse_sample None throwing_limit sample_now
        (deleteTodo None sample_db "t1").1 =
        {| Response.status := 200; Response.success := true;
           Response.body := Statistics s' |}
    ∧ Stats.total s' = Stats.total s - 1.
Proof.
  destruct (getTodoStats_after_delete Date_parse_sample None throwing_limit
              sample_now sample_db "t1"
              (sample_todo "write" "completed" "2023-12-01T08:00:00.000Z"
                 (Some "2023-12-31T23:59:59.000Z")))
    as (s & s' & H1 & H2 & Ht & _).
  { vm_compute. reflexivity. }
  exists s, s'. split; [exact H1|]. split; [exact H2|]. exact Ht.
Defined.

Lemma getTodoById_fields_witness :
  ∃ record,
    getTodoById None sample_db "t3" =
      {| Reply.status := 200; Reply.success := true;
         Reply.body := Item None record |}
    ∧ record !! "id" = Some (VStr "t3").
Proof.
  destruct (getTodoById_fields None sample_db "t3"
              (sample_todo "ship" "pending" "2023-12-03T08:00:00.000Z"
                 (Some "2023-12-31T23:59:59.000Z")))
    as (record & H & _ & Hid).
  { vm_compute. reflexivity. }
  exists record. split; [exact H|]. rewrite Hid. vm_compute. reflexivity.
Defined.

Lemma updateTodo_not_found_witness :
  sample_update sample_db "t9" {[ "status" := VStr "completed" ]} =
    (sample_db,
     {| Reply.status := 404; Reply.success := false;
        Reply.body := ItemFailure "Todo not found" None |}).
Proof.
  apply (updateTodo_not_found None sample_Todo_fields sample_toISOString
           1704067200000 sample_db "t9" {[ "status" := VStr "completed" ]}).
  vm_compute. reflexivity.
Defined.

Lemma updateTodo_success_witness :
  dom (sample_update sample_db "t3" {[ "status" := VStr "completed" ]}).1
  = dom sample_db.
Proof.
  destruct (updateTodo_success None sample_Todo_fields sample_toISOString
              1704067200000 sample_db "t3" {[ "status" := VStr "completed" ]})
    as (old & fields & _ & _ & _ & _ & Hdom).
  { vm_compute. reflexivity. }
  exact Hdom.
Defined.

Lemma updateTodo_then_getTodoById_witness :
  ∃ record,
    getTodoById None
      (sample_update sample_db "t3" {[ "status" := VStr "completed" ]}).1 "t3" =
      {| Reply.status := 200; Reply.success := true;
         Reply.body := Item None record |}
    ∧ record !! "status" = Some (VStr "completed")
    ∧ record !! "updatedAt" = Some (VStr "2024-01-01T00:00:00.000Z").
Proof.
  destruct (updateTodo_then_getTodoById None sample_Todo_fields
              sample_toISOString 1704067200000 sample_db "t3"
              {[ "status" := VStr "completed" ]}
              (reply_data
                 (sample_update sample_db "t3" {[ "status" := VStr "completed" ]}).2)
              (Some "Todo updated successfully"))
    as (record & H & Hf).
  { vm_compute. reflexivity. }
  exists record. split; [exact H|].
  split; apply Hf; try discriminate; vm_compute; reflexivity.
Defined.

Lemma createTodo_success_witness :
  ∃ todo,
    sample_db !! "t5" = None
    ∧ getTodoById None
        (sample_create "t5" sample_db {[ "title" := VStr "call" ]}).1 "t5" =
        {| Reply.status := 200; Reply.success := true;
           Reply.body := Item None (todo ∪ {[ "id" := VStr "t5" ]}) |}
    ∧ reply_data (sample_create "t5" sample_db {[ "title" := VStr "call" ]}).2
      = todo ∪ {[ "id" := VStr "t5" ]}.
Proof.
  destruct (createTodo_success None sample_Todo_fields "t5" sample_db
              {[ "title" := VStr "call" ]})
    as (todo & Hfree & _ & Hc & Hg).
  { vm_compute. reflexivity. }
  exists todo. split; [exact Hfree|]. split; [exact Hg|].
  unfold sample_create. rewrite Hc. reflexivity.
Defined.

Lemma createTodo_reads_four_fields_witness :
  sample_create "t5" sample_db
    (<[ "createdAt" := VStr "1999-01-01T00:00:00.000Z" ]> {[ "title" := VStr "call" ]})
  = sample_create "t5" sample_db {[ "title" := VStr "call" ]}.
Proof.
  apply (createTodo_reads_four_fields None sample_Todo_fields "t5" sample_db).
  intros f Hf.
  repeat (apply elem_of_cons in Hf as [->|Hf]; [vm_compute; reflexivity|]).
  by apply elem_of_nil in Hf.
Defined.

Lemma updateTodo_ignores_sent_updatedAt_witness :
  sample_update sample_db "t3"
    (<[ "updatedAt" := VStr "1999-01-01T00:00:00.000Z" ]>
       {[ "status" := VStr "completed" ]})
  = sample_update sample_db "t3" {[ "status" := VStr "completed" ]}.
Proof.
  apply (updateTodo_ignores_sent_updatedAt None sample_Todo_fields
           sample_toISOString 1704067200000 sample_db "t3").
  intros f Hf. by rewrite lookup_insert_ne.
Defined.
